(** * Task Management API (demos/python-fastapi): a shallow embedding

    The development follows [app/models/task.py] (the pydantic models) and
    [app/api/v1/tasks.py] (the in-memory store and its six handlers).

    - the module globals [tasks_db] and [next_id], together with the number
      of clock reads made so far, form the [world] every handler threads;
    - [datetime.utcnow()] is a read of a clock oracle [clock : nat -> datetime],
      the n-th read returning [clock n];
    - a handler is a computation in a small state-and-exception monad [M];
      [raise HTTPException(...)] is [raise];
    - what FastAPI does before a handler runs (parsing the JSON body into
      [TaskCreate] / [TaskUpdate], checking the [Query] bounds) is the
      [parse_*] layer, written from the [Field] and [Query] declarations. *)

From Stdlib Require Import ZArith String DecimalString.
From stdpp Require Import base numbers list strings gmap sorting.

Open Scope Z_scope.

(** ** app/models/task.py *)

Inductive TaskStatus := PENDING | IN_PROGRESS | COMPLETED | CANCELLED.
Inductive TaskPriority := LOW | MEDIUM | HIGH | CRITICAL.

#[global] Instance TaskStatus_eq_dec : EqDecision TaskStatus.
Proof. solve_decision. Defined.
#[global] Instance TaskPriority_eq_dec : EqDecision TaskPriority.
Proof. solve_decision. Defined.

(** [member.value] of the two [str] enumerations. *)
Definition status_value (s : TaskStatus) : string :=
  match s with
  | PENDING => "pending"
  | IN_PROGRESS => "in_progress"
  | COMPLETED => "completed"
  | CANCELLED => "cancelled"
  end.

Definition priority_value (p : TaskPriority) : string :=
  match p with
  | LOW => "low"
  | MEDIUM => "medium"
  | HIGH => "high"
  | CRITICAL => "critical"
  end.

(** Iteration order of [for status in TaskStatus] (definition order). *)
Definition all_TaskStatus : list TaskStatus :=
  [PENDING; IN_PROGRESS; COMPLETED; CANCELLED].
Definition all_TaskPriority : list TaskPriority :=
  [LOW; MEDIUM; HIGH; CRITICAL].

(** [TaskStatus(raw)]: look a member up by value. *)
Definition TaskStatus_of_value (raw : string) : option TaskStatus :=
  snd <$> list_find (λ s, status_value s = raw) all_TaskStatus.
Definition TaskPriority_of_value (raw : string) : option TaskPriority :=
  snd <$> list_find (λ p, priority_value p = raw) all_TaskPriority.

(** Truth value of a [str]: the empty string is falsy.  Members of a [str]
    mixed enumeration follow the rule of [str]. *)
Definition bool_of_str (s : string) : bool := negb (String.eqb s "").

(** Timestamps: microseconds on the UTC time line. *)
Definition datetime := Z.

(** The [int] to text conversion of an f-string, [f"{task_id}"]. *)
Definition str_of_int (z : Z) : string := NilZero.string_of_int (Z.to_int z).

(** A stored task is the [dict] built by [create_task]; [t_k] is [task["k"]].
    The five keys that [update_task] assigns may afterwards hold [None],
    whence the [option]s. *)
Record task := mk_task {
  t_id : Z;
  t_title : option string;
  t_description : option string;
  t_status : option TaskStatus;
  t_priority : option TaskPriority;
  t_due_date : option datetime;
  t_created_at : datetime;
  t_updated_at : datetime
}.

(** A key of a JSON request body: absent, [null], or a value. *)
Inductive field (A : Type) := Unset | Null | Val (a : A).
Arguments Unset {A}.
Arguments Null {A}.
Arguments Val {A} a.

(** A JSON request body, restricted to the keys the models declare (pydantic
    ignores the others).  Enumeration members travel as their text. *)
Record body := mk_body {
  b_title : field string;
  b_description : field string;
  b_status : field string;
  b_priority : field string;
  b_due_date : field datetime
}.

(** Validation either yields a value or the locations of the offending
    fields. *)
Definition validated (A : Type) : Type := list string + A.

(** A text is held as its UTF-8 bytes.  A byte from 128 to 191 continues a
    character; any other byte starts one. *)
Definition is_continuation (a : Ascii.ascii) : bool :=
  (128 <=? Ascii.nat_of_ascii a)%nat && (Ascii.nat_of_ascii a <=? 191)%nat.

(** [len(s)] of a [str]: the number of its characters (code points), not of
    its bytes. *)
Fixpoint py_len (s : string) : nat :=
  match s with
  | EmptyString => 0%nat
  | String a s' => ((if is_continuation a then 0 else 1) + py_len s')%nat
  end.

(** [Field(..., min_length=lo, max_length=hi)] on a [str]: the bounds are on
    the number of characters. *)
Definition str_constraints (lo : option nat) (hi : option nat) (s : string) : bool :=
  match lo with Some n => bool_decide (n ≤ py_len s)%nat | None => true end
  && match hi with Some n => bool_decide (py_len s ≤ n)%nat | None => true end.

(** [name: str = Field(..., min_length, max_length)]: required, not nullable. *)
Definition required_str (name : string) (lo hi : option nat)
    (raw : field string) : validated string :=
  match raw with
  | Val s => if str_constraints lo hi s then inr s else inl [name]
  | Unset | Null => inl [name]
  end.

(** [name: Optional[str] = Field(None, min_length, max_length)]: the outer
    [option] records whether the key was set, the inner one is the value;
    the length constraints apply to strings only, [null] is accepted. *)
Definition optional_str (name : string) (lo hi : option nat)
    (raw : field string) : validated (option (option string)) :=
  match raw with
  | Unset => inr None
  | Null => inr (Some None)
  | Val s => if str_constraints lo hi s then inr (Some (Some s)) else inl [name]
  end.

(** [name: E = Field(default)] for an enumeration [E]: not nullable. *)
Definition defaulted_enum {E} (name : string) (of_value : string → option E)
    (default : E) (raw : field string) : validated E :=
  match raw with
  | Unset => inr default
  | Null => inl [name]
  | Val s => match of_value s with Some e => inr e | None => inl [name] end
  end.

(** [name: Optional[E] = None]. *)
Definition optional_enum {E} (name : string) (of_value : string → option E)
    (raw : field string) : validated (option (option E)) :=
  match raw with
  | Unset => inr None
  | Null => inr (Some None)
  | Val s => match of_value s with Some e => inr (Some (Some e)) | None => inl [name] end
  end.

(** [name: Optional[datetime] = None]; the body carries the parsed value. *)
Definition optional_datetime (raw : field datetime) : validated (option (option datetime)) :=
  match raw with
  | Unset => inr None
  | Null => inr (Some None)
  | Val d => inr (Some (Some d))
  end.

(** pydantic validates every field and reports all failures together. *)
Definition vmap {A B} (f : A → B) (x : validated A) : validated B :=
  match x with inl e => inl e | inr a => inr (f a) end.

Definition vap {A B} (f : validated (A → B)) (x : validated A) : validated B :=
  match f, x with
  | inl e1, inl e2 => inl (e1 ++ e2)
  | inl e1, inr _ => inl e1
  | inr _, inl e2 => inl e2
  | inr g, inr a => inr (g a)
  end.

(** [class TaskCreate(TaskBase)]. *)
Record TaskCreate := mk_TaskCreate {
  tc_title : string;
  tc_description : option string;
  tc_status : TaskStatus;
  tc_priority : TaskPriority;
  tc_due_date : option datetime
}.

(** [class TaskUpdate(BaseModel)]: every field optional; [None] means the key
    was not set, which is what [dict(exclude_unset=True)] looks at. *)
Record TaskUpdate := mk_TaskUpdate {
  tu_title : option (option string);
  tu_description : option (option string);
  tu_status : option (option TaskStatus);
  tu_priority : option (option TaskPriority);
  tu_due_date : option (option datetime)
}.

Definition parse_TaskCreate (b : body) : validated TaskCreate :=
  vap (vap (vap (vap (vmap mk_TaskCreate
    (required_str "title" (Some 1%nat) (Some 200%nat) (b_title b)))
    (vmap (from_option id None)
       (optional_str "description" None (Some 1000%nat) (b_description b))))
    (defaulted_enum "status" TaskStatus_of_value PENDING (b_status b)))
    (defaulted_enum "priority" TaskPriority_of_value MEDIUM (b_priority b)))
    (vmap (from_option id None) (optional_datetime (b_due_date b))).

Definition parse_TaskUpdate (b : body) : validated TaskUpdate :=
  vap (vap (vap (vap (vmap mk_TaskUpdate
    (optional_str "title" (Some 1%nat) (Some 200%nat) (b_title b)))
    (optional_str "description" None (Some 1000%nat) (b_description b)))
    (optional_enum "status" TaskStatus_of_value (b_status b)))
    (optional_enum "priority" TaskPriority_of_value (b_priority b)))
    (optional_datetime (b_due_date b)).

(** One entry of [task_update.dict(exclude_unset=True)]. *)
Inductive item :=
| Title (v : option string)
| Description (v : option string)
| Status (v : option TaskStatus)
| Priority (v : option TaskPriority)
| Due_date (v : option datetime).

(** [task_update.dict(exclude_unset=True).items()], in field order. *)
Definition dict_exclude_unset (u : TaskUpdate) : list item :=
  from_option (λ v, [Title v]) [] (tu_title u)
  ++ from_option (λ v, [Description v]) [] (tu_description u)
  ++ from_option (λ v, [Status v]) [] (tu_status u)
  ++ from_option (λ v, [Priority v]) [] (tu_priority u)
  ++ from_option (λ v, [Due_date v]) [] (tu_due_date u).

(** [task[field] = value]. *)
Definition setitem (t : task) (it : item) : task :=
  match it with
  | Title v => mk_task (t_id t) v (t_description t) (t_status t) (t_priority t)
                 (t_due_date t) (t_created_at t) (t_updated_at t)
  | Description v => mk_task (t_id t) (t_title t) v (t_status t) (t_priority t)
                 (t_due_date t) (t_created_at t) (t_updated_at t)
  | Status v => mk_task (t_id t) (t_title t) (t_description t) v (t_priority t)
                 (t_due_date t) (t_created_at t) (t_updated_at t)
  | Priority v => mk_task (t_id t) (t_title t) (t_description t) (t_status t) v
                 (t_due_date t) (t_created_at t) (t_updated_at t)
  | Due_date v => mk_task (t_id t) (t_title t) (t_description t) (t_status t)
                 (t_priority t) v (t_created_at t) (t_updated_at t)
  end.

(** [task["updated_at"] = value]. *)
Definition set_updated_at (t : task) (now : datetime) : task :=
  mk_task (t_id t) (t_title t) (t_description t) (t_status t) (t_priority t)
    (t_due_date t) (t_created_at t) now.

(** ** app/api/v1/tasks.py: the store and the monad of its handlers *)

(** What a request can fail with: [HTTPException(status_code, detail)] raised
    by a handler, or the validation error FastAPI answers with status 422
    before the handler runs. *)
Inductive error :=
| HTTPException (status_code : Z) (detail : string)
| ValidationError (locs : list string).

Inductive result (A : Type) :=
| Ok (a : A)
| Raise (e : error).
Arguments Ok {A} a.
Arguments Raise {A} e.

(** The module globals, and the number of clock reads made so far. *)
Record world := mk_world {
  tasks_db : list task;
  next_id : Z;
  clock_reads : nat
}.

(** [tasks_db = []], [next_id = 1]. *)
Definition initial : world := mk_world [] 1 0.

Definition M (A : Type) : Type := world → result A * world.

#[global] Instance M_ret : MRet M := λ A a w, (Ok a, w).
#[global] Instance M_bind : MBind M := λ A B k c w,
  match c w with
  | (Ok a, w') => k a w'
  | (Raise e, w') => (Raise e, w')
  end.

Definition raise {A} (e : error) : M A := λ w, (Raise e, w).

Definition read_tasks_db : M (list task) := λ w, (Ok (tasks_db w), w).
Definition write_tasks_db (db : list task) : M unit :=
  λ w, (Ok (), mk_world db (next_id w) (clock_reads w)).
Definition read_next_id : M Z := λ w, (Ok (next_id w), w).
Definition write_next_id (n : Z) : M unit :=
  λ w, (Ok (), mk_world (tasks_db w) n (clock_reads w)).

(** Python's [l[lo:hi]] for arbitrary integers: negative bounds count from
    the end, and both bounds are clipped to the list. *)
Definition slice_index (len i : Z) : Z :=
  if i <? 0 then Z.max 0 (i + len) else Z.min i len.

Definition py_slice {A} (l : list A) (lo hi : Z) : list A :=
  let len := Z.of_nat (length l) in
  let a := slice_index len lo in
  let b := slice_index len hi in
  take (Z.to_nat (b - a)) (drop (Z.to_nat a) l).

(** [next((task for task in tasks_db if task["id"] == task_id), None)]: the
    first task with that id, and the position of that [dict] in the list:
    the handler gets the stored object itself, not a copy.  A stored [dict]
    has its eight keys, so [if not task] holds for [None] only. *)
Definition find_by_id (task_id : Z) (db : list task) : option (nat * task) :=
  list_find (λ t, t_id t = task_id) db.

Definition not_found (task_id : Z) : error :=
  HTTPException 404 ("Task with ID " +:+ str_of_int task_id +:+ " not found").

(** [if status: filtered_tasks = [task for ... if task["status"] == status]]. *)
Definition filter_status (status : option TaskStatus) (l : list task) : list task :=
  match status with
  | Some s =>
      if bool_of_str (status_value s) then filter (λ t, t_status t = Some s) l else l
  | None => l
  end.

Definition filter_priority (priority : option TaskPriority) (l : list task) : list task :=
  match priority with
  | Some p =>
      if bool_of_str (priority_value p) then filter (λ t, t_priority t = Some p) l else l
  | None => l
  end.

Definition get_tasks (status : option TaskStatus) (priority : option TaskPriority)
    (limit offset : Z) : M (list task) :=
  db ← read_tasks_db;
  let filtered_tasks := db in
  let filtered_tasks := filter_status status filtered_tasks in
  let filtered_tasks := filter_priority priority filtered_tasks in
  let paginated_tasks := py_slice filtered_tasks offset (offset + limit) in
  mret paginated_tasks.

Definition get_task (task_id : Z) : M task :=
  db ← read_tasks_db;
  match find_by_id task_id db with
  | None => raise (not_found task_id)
  | Some (_, task) => mret task
  end.

Definition delete_task (task_id : Z) : M string :=
  db ← read_tasks_db;
  match find_by_id task_id db with
  | None => raise (not_found task_id)
  | Some _ =>
      write_tasks_db (filter (λ t, t_id t ≠ task_id) db);;
      mret ("Task " +:+ str_of_int task_id +:+ " deleted successfully")
  end.

(** The answer of [get_task_summary]; the two [dict]s are keyed by the
    members' values. *)
Record summary := mk_summary {
  total : nat;
  by_status : gmap string nat;
  by_priority : gmap string nat
}.

Definition count_status (db : list task) (s : TaskStatus) : nat :=
  length (filter (λ t, t_status t = Some s) db).
Definition count_priority (db : list task) (p : TaskPriority) : nat :=
  length (filter (λ t, t_priority t = Some p) db).

Definition get_task_summary : M summary :=
  db ← read_tasks_db;
  match db with
  | [] => mret (mk_summary 0 ∅ ∅)
  | _ =>
      let total := length db in
      let by_status :=
        foldl (λ d s, <[status_value s := count_status db s]> d) ∅ all_TaskStatus in
      let by_priority :=
        foldl (λ d p, <[priority_value p := count_priority db p]> d) ∅ all_TaskPriority in
      mret (mk_summary total by_status by_priority)
  end.

Section Clock.

(** [clock n] is what the n-th call of [datetime.utcnow()] returns. *)
Variable clock : nat → datetime.

Definition utcnow : M datetime :=
  λ w, (Ok (clock (clock_reads w)),
        mk_world (tasks_db w) (next_id w) (S (clock_reads w))).

(** The [dict] display of [new_task] evaluates its values top to bottom:
    [next_id] is read first and the clock is read twice. *)
Definition create_task (task_data : TaskCreate) : M task :=
  id ← read_next_id;
  created_at ← utcnow;
  updated_at ← utcnow;
  let new_task :=
    mk_task id (Some (tc_title task_data)) (tc_description task_data)
      (Some (tc_status task_data)) (Some (tc_priority task_data))
      (tc_due_date task_data) created_at updated_at in
  db ← read_tasks_db;
  write_tasks_db (db ++ [new_task]);;
  n ← read_next_id;
  write_next_id (n + 1);;
  mret new_task.

(** [task] is the stored [dict] at position [i]; the assignments of the loop
    and of [task["updated_at"]] change it in place. *)
Definition update_task (task_id : Z) (task_update : TaskUpdate) : M task :=
  db ← read_tasks_db;
  match find_by_id task_id db with
  | None => raise (not_found task_id)
  | Some (i, task) =>
      let update_data := dict_exclude_unset task_update in
      let task := foldl setitem task update_data in
      now ← utcnow;
      let task := set_updated_at task now in
      write_tasks_db (<[i:=task]> db);;
      mret task
  end.

(** ** The routes of [router]

    FastAPI converts and checks the query parameters and the body before it
    calls the handler; a failure there is answered with status 422 and the
    handler does not run.  [route] yields what the handler returns; the check
    of that value against the route's [response_model] is [respond], further
    down. *)

(** [name: int = Query(default, ge=.., le=..)]. *)
Definition Query_int (name : string) (default : Z) (ge le : option Z)
    (raw : option Z) : validated Z :=
  match raw with
  | None => inr default
  | Some v =>
      if match ge with Some b => bool_decide (b ≤ v) | None => true end
         && match le with Some b => bool_decide (v ≤ b) | None => true end
      then inr v else inl [name]
  end.

(** [name: Optional[E] = Query(None)] for an enumeration [E]. *)
Definition Query_enum {E} (name : string) (of_value : string → option E)
    (raw : option string) : validated (option E) :=
  match raw with
  | None => inr None
  | Some s => match of_value s with Some e => inr (Some e) | None => inl [name] end
  end.

Definition check {A} (v : validated A) : M A :=
  match v with
  | inl locs => raise (ValidationError locs)
  | inr a => mret a
  end.

Inductive request :=
| GET_tasks (status priority : option string) (limit offset : option Z)
| GET_task (task_id : Z)
| POST_task (b : body)
| PUT_task (task_id : Z) (b : body)
| DELETE_task (task_id : Z)
| GET_summary.

Inductive response :=
| Listed (l : list task)
| Found (t : task)
| Created (t : task)
| Updated (t : task)
| Deleted (message : string)
| Summarised (s : summary).

Definition route (r : request) : M response :=
  match r with
  | GET_tasks status priority limit offset =>
      q ← check (vap (vap (vap (vmap (λ s p l o, (s, p, l, o))
             (Query_enum "status" TaskStatus_of_value status))
             (Query_enum "priority" TaskPriority_of_value priority))
             (Query_int "limit" 10 (Some 1) (Some 100) limit))
             (Query_int "offset" 0 (Some 0) None offset));
      let '(s, p, l, o) := q in
      l ← get_tasks s p l o; mret (Listed l)
  | GET_task task_id => t ← get_task task_id; mret (Found t)
  | POST_task b =>
      task_data ← check (parse_TaskCreate b);
      t ← create_task task_data; mret (Created t)
  | PUT_task task_id b =>
      task_update ← check (parse_TaskUpdate b);
      t ← update_task task_id task_update; mret (Updated t)
  | DELETE_task task_id => m ← delete_task task_id; mret (Deleted m)
  | GET_summary => s ← get_task_summary; mret (Summarised s)
  end.

(** The store after a sequence of requests. *)
Fixpoint run (rs : list request) (w : world) : world :=
  match rs with
  | [] => w
  | r :: rs => run rs (snd (route r w))
  end.

(** The ids handed out by the creations of a sequence of requests. *)
Definition issued_by (r : request) (w : world) : list Z :=
  match fst (route r w) with
  | Ok (Created t) => [t_id t]
  | _ => []
  end.

Fixpoint issued (rs : list request) (w : world) : list Z :=
  match rs with
  | [] => []
  | r :: rs => issued_by r w ++ issued rs (snd (route r w))
  end.

Definition reachable (w : world) : Prop := ∃ rs, w = run rs initial.

End Clock.

(** * Vocabulary of the statements *)

(** A task matches the filters that are given. *)
Definition matches (status : option TaskStatus) (priority : option TaskPriority)
    (t : task) : Prop :=
  match status with Some s => t_status t = Some s | None => True end
  ∧ match priority with Some p => t_priority t = Some p | None => True end.

#[global] Instance matches_dec status priority t : Decision (matches status priority t).
Proof. unfold matches. destruct status, priority; apply _. Defined.

(** The stored ids are pairwise distinct and below the counter. *)
Definition store_inv (w : world) : Prop :=
  NoDup (t_id <$> tasks_db w) ∧ Forall (λ t, t_id t < next_id w) (tasks_db w).

(** A clock that advances by one microsecond between two reads, and one that
    stands still; used to evaluate the handlers on concrete requests. *)
Definition ticking : nat → datetime := Z.of_nat.
Definition frozen : nat → datetime := λ _, 0.

Definition titled (s : string) : body := mk_body (Val s) Unset Unset Unset Unset.

(** A store holding two pending tasks, built by two [POST] requests. *)
Definition two_pending : world :=
  run ticking [POST_task (titled "a"); POST_task (titled "b")] initial.

(** [class Task(TaskBase)], the [response_model] of the task routes: what a
    stored [dict] has to hold to be an instance of it.  [id] and [created_at]
    are always there; [updated_at] is optional. *)
Definition Task_valid (t : task) : bool :=
  match t_title t with
  | Some s => str_constraints (Some 1%nat) (Some 200%nat) s
  | None => false
  end
  && match t_description t with
     | Some d => str_constraints None (Some 1000%nat) d
     | None => true
     end
  && match t_status t with Some _ => true | None => false end
  && match t_priority t with Some _ => true | None => false end.

(** A body that sets one of the three keys [Task] requires to [null]. *)
Definition nulls_required (b : body) : Prop :=
  b_title b = Null ∨ b_status b = Null ∨ b_priority b = Null.

(** What the client is answered: the outcome of the route, or status 500. *)
Inductive answer :=
| Answered (res : result response)
| Internal_Server_Error.

(** The routes declared with [response_model=Task] or [List[Task]] have the
    value the handler returns checked against the model; a value that does
    not pass is not sent, the request is answered with status 500.  What the
    handler did to the store stays done.  [delete_task] and
    [get_task_summary] declare no model. *)
Definition respond (clock : nat → datetime) (r : request) (w : world)
    : answer * world :=
  match route clock r w with
  | (Ok (Listed l), w') =>
      (if forallb Task_valid l then Answered (Ok (Listed l))
       else Internal_Server_Error, w')
  | (Ok (Found t), w') =>
      (if Task_valid t then Answered (Ok (Found t)) else Internal_Server_Error, w')
  | (Ok (Created t), w') =>
      (if Task_valid t then Answered (Ok (Created t)) else Internal_Server_Error, w')
  | (Ok (Updated t), w') =>
      (if Task_valid t then Answered (Ok (Updated t)) else Internal_Server_Error, w')
  | (res, w') => (Answered res, w')
  end.

(** The routes registered with [router.get]. *)
Definition is_get (r : request) : bool :=
  match r with
  | GET_tasks _ _ _ _ | GET_task _ | GET_summary => true
  | POST_task _ | PUT_task _ _ | DELETE_task _ => false
  end.

(** The stored ids grow along the list and lie between 1 and the counter. *)
Definition ids_ascending (w : world) : Prop :=
  StronglySorted Z.lt (t_id <$> tasks_db w)
  ∧ Forall (λ t, 1 ≤ t_id t < next_id w) (tasks_db w)
  ∧ 1 ≤ next_id w.

(** Every stored [created_at] is a past reading of the clock and is not
    later than the task's [updated_at]. *)
Definition stamps_ordered (clock : nat → datetime) (w : world) : Prop :=
  Forall (λ t, (∃ k, (k < clock_reads w)%nat ∧ t_created_at t = clock k)
               ∧ t_created_at t ≤ t_updated_at t) (tasks_db w).

(** ** app/main.py: the handler registered for [HTTPException] *)

(** The values of a JSON object built by the application. *)
Inductive json :=
| JStr (s : string)
| JInt (n : Z).

(** [JSONResponse(status_code=.., content={..})]. *)
Record JSONResponse := mk_JSONResponse {
  status_code : Z;
  content : gmap string json
}.

Section App.

Variable clock : nat → datetime.

(** [datetime.isoformat], of the standard library. *)
Variable isoformat : datetime → string.

(** [http_exception_handler(request, exc)]; the request is not looked at. *)
Definition http_exception_handler (exc_status_code : Z) (exc_detail : string)
    : M JSONResponse :=
  now ← utcnow clock;
  mret (mk_JSONResponse exc_status_code
          (<["timestamp" := JStr (isoformat now)]>
             (<["status_code" := JInt exc_status_code]>
                (<["error" := JStr exc_detail]> ∅)))).

(** A request served by [app]: what the route returns, or, when the route
    raises an [HTTPException], the response built by the registered handler.
    A validation error is answered by the framework, not by this handler. *)
Definition serve (r : request) (w : world)
    : (result response + JSONResponse) * world :=
  match route clock r w with
  | (Raise (HTTPException c d), w') =>
      match http_exception_handler c d w' with
      | (Ok j, w'') => (inr j, w'')
      | (Raise e, w'') => (inl (Raise e), w'')
      end
  | (res, w') => (inl res, w')
  end.

End App.

(** * Properties of the handlers *)

Ltac run_M :=
  unfold mbind, M_bind, mret, M_ret, raise, check, read_tasks_db,
    write_tasks_db, read_next_id, write_next_id, utcnow in *;
  simpl in *.

(** ** Filters and pagination of [get_tasks] *)

Lemma status_truthy (s : TaskStatus) : bool_of_str (status_value s) = true.
Proof. by destruct s. Qed.

Lemma priority_truthy (p : TaskPriority) : bool_of_str (priority_value p) = true.
Proof. by destruct p. Qed.

Lemma filters_matches status priority (l : list task) :
  filter_priority priority (filter_status status l)
  = filter (matches status priority) l.
Proof.
  unfold filter_priority, filter_status, matches.
  destruct status as [s|], priority as [p|];
    rewrite ?status_truthy, ?priority_truthy, ?list_filter_filter.
  - apply list_filter_iff. tauto.
  - apply list_filter_iff. tauto.
  - apply list_filter_iff. tauto.
  - induction l as [|t l IH]; [done|].
    rewrite filter_cons_True by done. by rewrite <- IH.
Qed.

Lemma slice_index_nonneg (len i : Z) :
  0 ≤ i → slice_index len i = Z.min i len.
Proof. intros Hi. unfold slice_index. by rewrite (proj2 (Z.ltb_ge i 0) Hi). Qed.

(** For the bounds [get_tasks] is called with, the slice is a window. *)
Lemma py_slice_window {A} (l : list A) (offset limit : Z) :
  0 ≤ offset → 0 ≤ limit →
  py_slice l offset (offset + limit)
  = take (Z.to_nat limit) (drop (Z.to_nat offset) l).
Proof.
  intros Ho Hl. unfold py_slice.
  rewrite !slice_index_nonneg by lia.
  destruct (decide (Z.of_nat (length l) ≤ offset)) as [Hge|Hlt].
  - rewrite !drop_ge by lia. by rewrite !take_nil.
  - replace (Z.to_nat (offset `min` Z.of_nat (length l))) with (Z.to_nat offset) by lia.
    destruct (decide (offset + limit ≤ Z.of_nat (length l))) as [Hin|Hout].
    + f_equal. lia.
    + rewrite !take_ge; [done| |]; rewrite length_drop; lia.
Qed.

Lemma get_tasks_window status priority (limit offset : Z) (w : world) :
  1 ≤ limit → 0 ≤ offset →
  get_tasks status priority limit offset w
  = (Ok (take (Z.to_nat limit) (drop (Z.to_nat offset)
           (filter (matches status priority) (tasks_db w)))), w).
Proof.
  intros Hl Ho. unfold get_tasks. run_M.
  by rewrite filters_matches, py_slice_window by lia.
Qed.

Lemma window_length {A} (l : list A) (limit offset : Z) :
  0 ≤ limit → 0 ≤ offset →
  Z.of_nat (length (take (Z.to_nat limit) (drop (Z.to_nat offset) l)))
  = Z.min limit (Z.max 0 (Z.of_nat (length l) - offset)).
Proof. intros Hl Ho. rewrite length_take, length_drop. lia. Qed.

(** C6, as stated, fails: with two pending tasks in the store and [limit=1],
    [get_tasks(status=pending)] returns one task, not the two that match. *)
Lemma C6_list_not_all_matches :
  fst (get_tasks (Some PENDING) None 1 0 two_pending)
  ≠ Ok (filter (matches (Some PENDING) None) (tasks_db two_pending)).
Proof. vm_compute. discriminate. Qed.

(** C6 (amended): for a limit in 1..100 and an offset >= 0, [get_tasks]
    returns exactly the tasks matching every given filter (both filters ANDed),
    in their relative insertion order, restricted to the pagination window
    (the first [offset] matches skipped, at most [limit] taken); no task that
    fails a given filter is returned, and when the window covers all matches
    the result is all of them.  The store is not changed. *)
Theorem C6_list_filters status priority (limit offset : Z) (w : world) :
  1 ≤ limit ≤ 100 → 0 ≤ offset →
  ∃ r, get_tasks status priority limit offset w = (Ok r, w)
    ∧ r = take (Z.to_nat limit) (drop (Z.to_nat offset)
            (filter (matches status priority) (tasks_db w)))
    ∧ (∀ t, t ∈ r → t ∈ tasks_db w ∧ matches status priority t)
    ∧ r `sublist_of` tasks_db w
    ∧ (offset = 0
       → Z.of_nat (length (filter (matches status priority) (tasks_db w))) ≤ limit
       → r = filter (matches status priority) (tasks_db w)).
Proof.
  intros Hl Ho. eexists. split; [apply get_tasks_window; lia|].
  split; [done|].
  assert (Hsub : take (Z.to_nat limit) (drop (Z.to_nat offset)
             (filter (matches status priority) (tasks_db w)))
           `sublist_of` filter (matches status priority) (tasks_db w)).
  { etrans; [apply sublist_take | apply sublist_drop]. }
  split; [|split].
  - intros t Ht. eapply elem_of_sublist in Ht; [|exact Hsub].
    by apply list_elem_of_filter in Ht as [? ?].
  - etrans; [exact Hsub | apply sublist_filter].
  - intros -> Hn. simpl. apply take_ge. lia.
Qed.

Lemma C6_list_filters_witness :
  ∃ r, get_tasks (Some PENDING) (Some MEDIUM) 10 0 two_pending = (Ok r, two_pending)
    ∧ length r = 2%nat.
Proof.
  destruct (C6_list_filters (Some PENDING) (Some MEDIUM) 10 0 two_pending)
    as (r & Hr & Heq & _); [lia | lia |].
  exists r. split; [exact Hr|]. rewrite Heq. reflexivity.
Defined.

(** C7: for a limit L in 1..100 and an offset O >= 0, with N tasks matching
    the active filters, [get_tasks] returns min(L, max(0, N-O)) records: the
    filtered sequence with its first O records skipped and at most L taken. *)
Theorem C7_list_pagination status priority (L O : Z) (w : world) :
  1 ≤ L ≤ 100 → 0 ≤ O →
  let filtered := filter (matches status priority) (tasks_db w) in
  let N := Z.of_nat (length filtered) in
  ∃ r, get_tasks status priority L O w = (Ok r, w)
    ∧ r = take (Z.to_nat L) (drop (Z.to_nat O) filtered)
    ∧ Z.of_nat (length r) = Z.min L (Z.max 0 (N - O)).
Proof.
  intros HL HO filtered N. eexists. split; [apply get_tasks_window; lia|].
  split; [done|]. apply window_length; lia.
Qed.

Lemma C7_list_pagination_witness :
  ∃ r, get_tasks None None 1 1 two_pending = (Ok r, two_pending)
    ∧ Z.of_nat (length r) = 1.
Proof.
  destruct (C7_list_pagination None None 1 1 two_pending)
    as (r & Hr & _ & Hlen); [lia | lia |].
  exists r. split; [exact Hr | exact Hlen].
Defined.

(** ** Validation of the query parameters *)

Lemma Query_int_out_of_range name default (lo hi : Z) (v : Z) :
  ¬ (lo ≤ v ≤ hi) →
  Query_int name default (Some lo) (Some hi) (Some v) = inl [name].
Proof.
  intros Hv. unfold Query_int.
  destruct (decide (lo ≤ v)), (decide (v ≤ hi));
    rewrite ?bool_decide_true, ?bool_decide_false by done; simpl; try done.
  lia.
Qed.

Lemma Query_int_below name default (lo : Z) (v : Z) :
  v < lo → Query_int name default (Some lo) None (Some v) = inl [name].
Proof.
  intros Hv. unfold Query_int. rewrite bool_decide_false by lia. done.
Qed.

Lemma Query_enum_status (s : option TaskStatus) :
  Query_enum "status" TaskStatus_of_value (status_value <$> s) = inr s.
Proof. by destruct s as [[]|]. Qed.

Lemma Query_enum_priority (p : option TaskPriority) :
  Query_enum "priority" TaskPriority_of_value (priority_value <$> p) = inr p.
Proof. by destruct p as [[]|]. Qed.

Lemma Query_int_in_range name d (lo hi : Z) (raw : option Z) :
  (∀ v, raw = Some v → lo ≤ v ≤ hi) →
  Query_int name d (Some lo) (Some hi) raw = inr (default d raw).
Proof.
  intros Hv. destruct raw as [v|]; [|done]. simpl.
  specialize (Hv v eq_refl). by rewrite !bool_decide_true by lia.
Qed.

Lemma Query_int_at_least name d (lo : Z) (raw : option Z) :
  (∀ v, raw = Some v → lo ≤ v) →
  Query_int name d (Some lo) None raw = inr (default d raw).
Proof.
  intros Hv. destruct raw as [v|]; [|done]. simpl.
  specialize (Hv v eq_refl). by rewrite bool_decide_true by lia.
Qed.

Lemma forallb_Task_valid (l : list task) :
  Forall (λ t, Task_valid t = true) l → forallb Task_valid l = true.
Proof. induction 1 as [|t l Ht Hl IH]; [done|]. simpl. by rewrite Ht, IH. Qed.

(** The answer to a list request whose parameters pass validation, on a
    store of valid tasks: an omitted [limit] counts as 10, an omitted
    [offset] as 0. *)
Lemma respond_listing clock (s : option TaskStatus) (p : option TaskPriority)
    (limit offset : option Z) (w : world) :
  (∀ l, limit = Some l → 1 ≤ l ≤ 100) → (∀ o, offset = Some o → 0 ≤ o) →
  Forall (λ t, Task_valid t = true) (tasks_db w) →
  respond clock (GET_tasks (status_value <$> s) (priority_value <$> p) limit offset) w
  = (Answered (Ok (Listed
       (take (Z.to_nat (default 10 limit)) (drop (Z.to_nat (default 0 offset))
          (filter (matches s p) (tasks_db w)))))), w).
Proof.
  intros Hl Ho Hw.
  assert (H10 : 1 ≤ default 10 limit).
  { destruct limit as [l|]; simpl; [apply (Hl l eq_refl) | lia]. }
  assert (H0 : 0 ≤ default 0 offset).
  { destruct offset as [o|]; simpl; [apply (Ho o eq_refl) | lia]. }
  unfold respond, route.
  rewrite Query_enum_status, Query_enum_priority.
  rewrite (Query_int_in_range "limit" 10 1 100 limit Hl).
  rewrite (Query_int_at_least "offset" 0 0 offset Ho).
  cbn [vap vmap]. unfold check, mbind, M_bind, mret, M_ret. cbn beta iota.
  rewrite get_tasks_window by done.
  rewrite forallb_Task_valid; [done|].
  apply Forall_take, Forall_drop.
  apply Forall_forall. intros t Ht. apply list_elem_of_filter in Ht as [_ Ht].
  rewrite Forall_forall in Hw. by apply Hw.
Qed.

(** C8: a [limit] outside 1..100 or a negative [offset] makes the list route
    fail with a validation error naming the parameter: the handler does not
    run, nothing is returned and nothing is clamped; when both parameters are
    omitted the request is served as with [limit=10] and [offset=0]; and a
    request whose parameters are valid or omitted is answered, on a store of
    valid tasks, with the matching tasks from the given offset (0 when
    omitted) up to the given limit (10 when omitted). *)
Theorem C8_list_query_bounds clock status priority (limit offset : option Z) (w : world) :
  (∀ l, limit = Some l → ¬ (1 ≤ l ≤ 100) →
     ∃ locs, route clock (GET_tasks status priority limit offset) w
             = (Raise (ValidationError locs), w) ∧ "limit" ∈ locs)
  ∧ (∀ o, offset = Some o → o < 0 →
     ∃ locs, route clock (GET_tasks status priority limit offset) w
             = (Raise (ValidationError locs), w) ∧ "offset" ∈ locs)
  ∧ route clock (GET_tasks status priority None None) w
    = route clock (GET_tasks status priority (Some 10) (Some 0)) w
  ∧ (∀ (s : option TaskStatus) (p : option TaskPriority),
     status = status_value <$> s → priority = priority_value <$> p →
     (∀ l, limit = Some l → 1 ≤ l ≤ 100) → (∀ o, offset = Some o → 0 ≤ o) →
     Forall (λ t, Task_valid t = true) (tasks_db w) →
     respond clock (GET_tasks status priority limit offset) w
     = (Answered (Ok (Listed
          (take (Z.to_nat (default 10 limit)) (drop (Z.to_nat (default 0 offset))
             (filter (matches s p) (tasks_db w)))))), w)).
Proof.
  split; [|split; [|split]].
  - intros l -> Hl. unfold route.
    rewrite (Query_int_out_of_range "limit" 10 1 100 l Hl).
    destruct (Query_enum "status" TaskStatus_of_value status),
      (Query_enum "priority" TaskPriority_of_value priority),
      (Query_int "offset" 0 (Some 0) None offset);
      simpl; eexists; (split; [reflexivity|]); set_solver.
  - intros o -> Ho. unfold route.
    rewrite (Query_int_below "offset" 0 0 o Ho).
    destruct (Query_enum "status" TaskStatus_of_value status),
      (Query_enum "priority" TaskPriority_of_value priority),
      (Query_int "limit" 10 (Some 1) (Some 100) limit);
      simpl; eexists; (split; [reflexivity|]); set_solver.
  - reflexivity.
  - intros s p -> -> Hl Ho Hw. by apply respond_listing.
Qed.

Lemma C8_list_query_bounds_witness :
  (∃ locs, route frozen (GET_tasks None None (Some 101) None) initial
           = (Raise (ValidationError locs), initial) ∧ "limit" ∈ locs)
  ∧ (∃ locs, route frozen (GET_tasks None None (Some 101) (Some (-1))) initial
           = (Raise (ValidationError locs), initial) ∧ "offset" ∈ locs)
  ∧ respond ticking (GET_tasks (Some "pending") None None None) two_pending
    = (Answered (Ok (Listed (take 10 (drop 0
         (filter (matches (Some PENDING) None) (tasks_db two_pending)))))),
       two_pending)
  ∧ respond ticking (GET_tasks None None (Some 1) None) two_pending
    = (Answered (Ok (Listed (take 1 (drop 0
         (filter (matches None None) (tasks_db two_pending)))))),
       two_pending).
Proof.
  split; [|split; [|split]].
  - apply (proj1 (C8_list_query_bounds frozen None None (Some 101) None initial) 101);
      [reflexivity | lia].
  - apply (proj1 (proj2
      (C8_list_query_bounds frozen None None (Some 101) (Some (-1)) initial)) (-1));
      [reflexivity | lia].
  - apply (proj2 (proj2 (proj2
      (C8_list_query_bounds ticking (Some "pending") None None None two_pending)))
      (Some PENDING) None); [reflexivity | reflexivity | discriminate | discriminate |].
    vm_compute. repeat constructor.
  - apply (proj2 (proj2 (proj2
      (C8_list_query_bounds ticking None None (Some 1) None two_pending)))
      None None); [reflexivity | reflexivity | | discriminate |].
    + intros l [= <-]. lia.
    + vm_compute. repeat constructor.
Defined.

(** ** Lookup by id *)

Lemma find_by_id_None (task_id : Z) (db : list task) :
  find_by_id task_id db = None ↔ ∀ t, t ∈ db → t_id t ≠ task_id.
Proof. unfold find_by_id. by rewrite list_find_None, Forall_forall. Qed.

Lemma find_by_id_Some (task_id : Z) (db : list task) i t :
  find_by_id task_id db = Some (i, t) → db !! i = Some t ∧ t_id t = task_id.
Proof. unfold find_by_id. rewrite list_find_Some. tauto. Qed.

Lemma find_by_id_present (task_id : Z) (db : list task) t :
  t ∈ db → t_id t = task_id → ∃ i t', find_by_id task_id db = Some (i, t').
Proof.
  intros Ht Hid.
  destruct (list_find_elem_of (λ t, t_id t = task_id) db t Ht Hid) as [[i t'] H].
  by exists i, t'.
Qed.

Lemma find_by_id_deleted (task_id : Z) (db : list task) :
  find_by_id task_id (filter (λ t, t_id t ≠ task_id) db) = None.
Proof.
  apply find_by_id_None. intros t Ht. by apply list_elem_of_filter in Ht as [? _].
Qed.

Lemma filter_absent_id (task_id : Z) (db : list task) :
  task_id ∉ t_id <$> db → filter (λ t, t_id t ≠ task_id) db = db.
Proof.
  induction db as [|x db IH]; intros Hx; [done|].
  rewrite fmap_cons in Hx. apply not_elem_of_cons in Hx as [Hne Hx].
  rewrite filter_cons_True by done. f_equal. by apply IH.
Qed.

(** With distinct ids in the store, the comprehension of [delete_task] drops
    the one position where the id is found. *)
Lemma filter_other_ids (task_id : Z) (db : list task) i t :
  NoDup (t_id <$> db) → db !! i = Some t → t_id t = task_id →
  filter (λ t, t_id t ≠ task_id) db = delete i db.
Proof.
  revert i. induction db as [|x db IH]; intros i Hnd Hi Hid; [done|].
  rewrite fmap_cons in Hnd. apply NoDup_cons in Hnd as [Hx Hnd].
  destruct i as [|i]; simpl in *.
  - injection Hi as ->. rewrite filter_cons_False by naive_solver.
    apply filter_absent_id. by rewrite <- Hid.
  - rewrite filter_cons_True.
    + f_equal. by apply (IH i).
    + intros Heq. apply Hx. rewrite <- Hid in Heq. rewrite Heq.
      apply list_elem_of_fmap. exists t. split; [done|].
      by eapply list_elem_of_lookup_2.
Qed.

(** ** What each handler returns and leaves behind *)

Lemma get_task_found (task_id : Z) (w : world) i t :
  find_by_id task_id (tasks_db w) = Some (i, t) → get_task task_id w = (Ok t, w).
Proof. intros H. unfold get_task. run_M. by rewrite H. Qed.

Lemma get_task_missing (task_id : Z) (w : world) :
  find_by_id task_id (tasks_db w) = None →
  get_task task_id w = (Raise (not_found task_id), w).
Proof. intros H. unfold get_task. run_M. by rewrite H. Qed.

Lemma delete_task_found (task_id : Z) (w : world) i t :
  find_by_id task_id (tasks_db w) = Some (i, t) →
  delete_task task_id w
  = (Ok ("Task " +:+ str_of_int task_id +:+ " deleted successfully"),
     mk_world (filter (λ t, t_id t ≠ task_id) (tasks_db w)) (next_id w) (clock_reads w)).
Proof. intros H. unfold delete_task. run_M. by rewrite H. Qed.

Lemma delete_task_missing (task_id : Z) (w : world) :
  find_by_id task_id (tasks_db w) = None →
  delete_task task_id w = (Raise (not_found task_id), w).
Proof. intros H. unfold delete_task. run_M. by rewrite H. Qed.

Lemma update_task_found clock (task_id : Z) (u : TaskUpdate) (w : world) i t :
  find_by_id task_id (tasks_db w) = Some (i, t) →
  let t' := set_updated_at (foldl setitem t (dict_exclude_unset u))
              (clock (clock_reads w)) in
  update_task clock task_id u w
  = (Ok t', mk_world (<[i:=t']> (tasks_db w)) (next_id w) (S (clock_reads w))).
Proof. intros H. unfold update_task. run_M. by rewrite H. Qed.

Lemma update_task_missing clock (task_id : Z) (u : TaskUpdate) (w : world) :
  find_by_id task_id (tasks_db w) = None →
  update_task clock task_id u w = (Raise (not_found task_id), w).
Proof. intros H. unfold update_task. run_M. by rewrite H. Qed.

Lemma create_task_eq clock (task_data : TaskCreate) (w : world) :
  let new_task :=
    mk_task (next_id w) (Some (tc_title task_data)) (tc_description task_data)
      (Some (tc_status task_data)) (Some (tc_priority task_data))
      (tc_due_date task_data)
      (clock (clock_reads w)) (clock (S (clock_reads w))) in
  create_task clock task_data w
  = (Ok new_task,
     mk_world (tasks_db w ++ [new_task]) (next_id w + 1) (S (S (clock_reads w)))).
Proof. reflexivity. Qed.

Lemma get_tasks_world status priority limit offset (w : world) :
  snd (get_tasks status priority limit offset w) = w.
Proof. reflexivity. Qed.

Lemma get_task_world (task_id : Z) (w : world) : snd (get_task task_id w) = w.
Proof. unfold get_task. run_M. by destruct (find_by_id _ _) as [[? ?]|]. Qed.

Lemma get_task_summary_world (w : world) : snd (get_task_summary w) = w.
Proof. unfold get_task_summary. run_M. by destruct (tasks_db w). Qed.

(** C9: [get_task], [update_task] and [delete_task] on an id that no stored
    task has raise the 404 error whose detail is "Task with ID {id} not found"
    and leave the store as it was; and after the deletion of an id that is
    present, [get_task] of that id raises the same error. *)
Theorem C9_not_found clock (task_id : Z) (w : world) :
  let detail := "Task with ID " +:+ str_of_int task_id +:+ " not found" in
  ((∀ t, t ∈ tasks_db w → t_id t ≠ task_id) →
     get_task task_id w = (Raise (HTTPException 404 detail), w)
     ∧ (∀ u, update_task clock task_id u w = (Raise (HTTPException 404 detail), w))
     ∧ delete_task task_id w = (Raise (HTTPException 404 detail), w))
  ∧ ((∃ t, t ∈ tasks_db w ∧ t_id t = task_id) →
     ∃ m w', delete_task task_id w = (Ok m, w')
       ∧ get_task task_id w' = (Raise (HTTPException 404 detail), w')).
Proof.
  intros detail. split.
  - intros Habs. apply find_by_id_None in Habs.
    split; [|split].
    + by apply get_task_missing.
    + intros u. by apply update_task_missing.
    + by apply delete_task_missing.
  - intros (t & Ht & Hid).
    destruct (find_by_id_present task_id (tasks_db w) t Ht Hid) as (i & t' & Hf).
    eexists _, _. split; [by eapply delete_task_found|].
    apply get_task_missing. simpl. apply find_by_id_deleted.
Qed.

Lemma C9_not_found_witness :
  get_task 99999 two_pending
  = (Raise (HTTPException 404 "Task with ID 99999 not found"), two_pending)
  ∧ ∃ m w', delete_task 1 two_pending = (Ok m, w')
      ∧ get_task 1 w' = (Raise (HTTPException 404 "Task with ID 1 not found"), w').
Proof.
  split.
  - apply (proj1 (C9_not_found ticking 99999 two_pending)).
    apply find_by_id_None. vm_compute. reflexivity.
  - apply (proj2 (C9_not_found ticking 1 two_pending)).
    eexists. split; [apply list_elem_of_here | reflexivity].
Defined.

(** ** Invariant of the store *)

Lemma setitem_id (t : task) (it : item) : t_id (setitem t it) = t_id t.
Proof. by destruct it. Qed.

Lemma foldl_setitem_id (t : task) (its : list item) :
  t_id (foldl setitem t its) = t_id t.
Proof.
  revert t. induction its as [|it its IH]; intros t; [done|].
  simpl. by rewrite IH, setitem_id.
Qed.

Lemma store_inv_initial : store_inv initial.
Proof. split; [apply NoDup_nil_2 | apply Forall_nil_2]. Qed.

Lemma store_inv_create clock (task_data : TaskCreate) (w : world) :
  store_inv w → store_inv (snd (create_task clock task_data w)).
Proof.
  intros [Hnd Hlt]. rewrite create_task_eq. unfold store_inv. simpl.
  rewrite fmap_app. simpl. split.
  - apply NoDup_app. split; [done|]. split; [|apply NoDup_singleton].
    intros i Hi Hi'. apply list_elem_of_singleton in Hi'. subst i.
    apply list_elem_of_fmap in Hi as (t & Heq & Ht).
    rewrite Forall_forall in Hlt. specialize (Hlt t Ht). lia.
  - apply Forall_app. split.
    + eapply Forall_impl; [exact Hlt|]. simpl. intros; lia.
    + apply Forall_singleton. simpl. lia.
Qed.

Lemma store_inv_update clock (task_id : Z) (u : TaskUpdate) (w : world) :
  store_inv w → store_inv (snd (update_task clock task_id u w)).
Proof.
  intros [Hnd Hlt].
  destruct (find_by_id task_id (tasks_db w)) as [[i t]|] eqn:Hf.
  - rewrite (update_task_found clock task_id u w i t Hf).
    apply find_by_id_Some in Hf as [Hi Hid]. unfold store_inv. simpl. split.
    + rewrite list_fmap_insert. simpl. rewrite foldl_setitem_id.
      rewrite list_insert_id; [done|]. by rewrite list_lookup_fmap, Hi.
    + apply Forall_insert; [done|]. simpl. rewrite foldl_setitem_id.
      rewrite Forall_forall in Hlt. apply Hlt. by eapply list_elem_of_lookup_2.
  - by rewrite update_task_missing.
Qed.

Lemma store_inv_delete (task_id : Z) (w : world) :
  store_inv w → store_inv (snd (delete_task task_id w)).
Proof.
  intros [Hnd Hlt].
  destruct (find_by_id task_id (tasks_db w)) as [[i t]|] eqn:Hf.
  - rewrite (delete_task_found task_id w i t Hf). unfold store_inv. simpl. split.
    + eapply sublist_NoDup; [exact Hnd|]. apply fmap_sublist, sublist_filter.
    + apply Forall_forall. intros x Hx. apply list_elem_of_filter in Hx as [_ Hx].
      rewrite Forall_forall in Hlt. by apply Hlt.
  - by rewrite delete_task_missing.
Qed.

(** A request that fails validation does not reach its handler. *)
Lemma check_inl {A B} (locs : list string) (k : A → M B) (w : world) :
  (check (inl locs) ≫= k) w = (Raise (ValidationError locs), w).
Proof. reflexivity. Qed.

Lemma check_inr {A B} (a : A) (k : A → M B) (w : world) :
  (check (inr a) ≫= k) w = k a w.
Proof. reflexivity. Qed.

Lemma snd_bind_ret {A B} (c : M A) (f : A → B) (w : world) :
  snd ((c ≫= λ a, mret (f a)) w) = snd (c w).
Proof. run_M. by destruct (c w) as [[a|e] w']. Qed.

Lemma route_inv clock (r : request) (w : world) :
  store_inv w → store_inv (snd (route clock r w)).
Proof.
  intros Hw. destruct r; unfold route.
  - match goal with |- context [check ?v] => destruct v as [e|[[[s p] l] o]] end.
    + by rewrite check_inl.
    + rewrite check_inr, snd_bind_ret. by rewrite get_tasks_world.
  - by rewrite snd_bind_ret, get_task_world.
  - destruct (parse_TaskCreate b) as [e|task_data].
    + by rewrite check_inl.
    + rewrite check_inr, snd_bind_ret. by apply store_inv_create.
  - destruct (parse_TaskUpdate b) as [e|task_update].
    + by rewrite check_inl.
    + rewrite check_inr, snd_bind_ret. by apply store_inv_update.
  - rewrite snd_bind_ret. by apply store_inv_delete.
  - by rewrite snd_bind_ret, get_task_summary_world.
Qed.

Lemma run_inv clock (rs : list request) (w : world) :
  store_inv w → store_inv (run clock rs w).
Proof.
  revert w. induction rs as [|r rs IH]; intros w Hw; [done|].
  simpl. by apply IH, route_inv.
Qed.

Lemma reachable_inv clock (w : world) : reachable clock w → store_inv w.
Proof. intros [rs ->]. apply run_inv, store_inv_initial. Qed.

(** C10: on a store reached by requests, deleting the id of a stored task
    removes that one record: the list loses exactly the position the task is
    at, the other tasks stay as they are and in the same order, and the id
    counter (like the clock) is not touched. *)
Theorem C10_delete_frame clock (task_id : Z) (w : world) (t : task) :
  reachable clock w → t ∈ tasks_db w → t_id t = task_id →
  ∃ i m w', delete_task task_id w = (Ok m, w')
    ∧ tasks_db w !! i = Some t
    ∧ tasks_db w' = delete i (tasks_db w)
    ∧ next_id w' = next_id w
    ∧ clock_reads w' = clock_reads w.
Proof.
  intros Hr Ht Hid. apply reachable_inv in Hr as [Hnd _].
  destruct (find_by_id_present task_id (tasks_db w) t Ht Hid) as (i & t' & Hf).
  pose proof (find_by_id_Some _ _ _ _ Hf) as [Hi Hid'].
  assert (t' = t) as ->.
  { apply list_elem_of_lookup in Ht as [j Hj].
    assert (i = j) as ->; [|congruence].
    eapply NoDup_lookup; [exact Hnd| |];
      rewrite list_lookup_fmap; [by rewrite Hi | rewrite Hj; simpl; congruence]. }
  exists i. eexists _, _. split; [by eapply delete_task_found|]. simpl.
  split; [done|]. split; [by eapply filter_other_ids|]. done.
Qed.

Lemma C10_delete_frame_witness :
  ∃ i m w', delete_task 1 two_pending = (Ok m, w')
    ∧ tasks_db two_pending !! i
      = Some (mk_task 1 (Some "a") None (Some PENDING) (Some MEDIUM) None 0 1)
    ∧ tasks_db w' = delete i (tasks_db two_pending)
    ∧ next_id w' = next_id two_pending
    ∧ clock_reads w' = clock_reads two_pending.
Proof.
  apply (C10_delete_frame ticking 1 two_pending
           (mk_task 1 (Some "a") None (Some PENDING) (Some MEDIUM) None 0 1)).
  - exists [POST_task (titled "a"); POST_task (titled "b")]. reflexivity.
  - vm_compute. apply list_elem_of_here.
  - reflexivity.
Defined.

(** ** The id counter *)

(** A request either issues no id and leaves the counter alone, or issues the
    value of the counter and advances it by one. *)
Lemma issued_step clock (r : request) (w : world) :
  (issued_by clock r w = [] ∧ next_id (snd (route clock r w)) = next_id w)
  ∨ (issued_by clock r w = [next_id w]
     ∧ next_id (snd (route clock r w)) = next_id w + 1).
Proof.
  destruct r; unfold issued_by, route.
  - match goal with |- context [check ?v] => destruct v as [e|[[[s p] l] o]] end;
      by left.
  - unfold get_task. run_M. destruct (find_by_id _ _) as [[? ?]|]; by left.
  - destruct (parse_TaskCreate b) as [e|task_data]; [by left | by right].
  - destruct (parse_TaskUpdate b) as [e|task_update]; [by left|].
    unfold update_task. run_M. destruct (find_by_id _ _) as [[? ?]|]; by left.
  - unfold delete_task. run_M. destruct (find_by_id _ _) as [[? ?]|]; by left.
  - unfold get_task_summary. run_M. destruct (tasks_db w); by left.
Qed.

Lemma next_id_monotone clock (r : request) (w : world) :
  next_id w ≤ next_id (snd (route clock r w)).
Proof. destruct (issued_step clock r w) as [[_ ->]|[_ ->]]; lia. Qed.

(** The ids issued from a store are the consecutive values of its counter. *)
Lemma issued_consecutive clock (rs : list request) (w : world) :
  issued clock rs w = seqZ (next_id w) (Z.of_nat (length (issued clock rs w)))
  ∧ next_id (run clock rs w)
    = next_id w + Z.of_nat (length (issued clock rs w)).
Proof.
  revert w. induction rs as [|r rs IH]; intros w; simpl.
  - split; [done | lia].
  - destruct (IH (snd (route clock r w))) as [Hseq Hnext].
    destruct (issued_step clock r w) as [[-> Hn]|[-> Hn]]; simpl;
      rewrite Hn in Hseq, Hnext.
    + by split.
    + split; [|lia].
      rewrite seqZ_cons by lia. f_equal.
      rewrite Hseq at 1. f_equal; lia.
Qed.

(** C1: over any sequence of requests from the empty store, the ids issued by
    the creations are 1, 2, 3, ... in that order, hence pairwise distinct,
    whatever was deleted in between; the counter is one more than the last id
    issued, no request decrements it, and a creation returns a task whose id is
    the counter (so it exceeds every id issued before and every id in the
    store) and advances the counter by one. *)
Theorem C1_ids_never_reused clock (rs : list request) :
  let w := run clock rs initial in
  let ids := issued clock rs initial in
  ids = seqZ 1 (Z.of_nat (length ids))
  ∧ NoDup ids
  ∧ next_id w = 1 + Z.of_nat (length ids)
  ∧ (∀ r, next_id w ≤ next_id (snd (route clock r w)))
  ∧ (∀ task_data, ∃ t w',
       create_task clock task_data w = (Ok t, w')
       ∧ next_id w' = next_id w + 1
       ∧ (∀ i, i ∈ ids → i < t_id t)
       ∧ (∀ t0, t0 ∈ tasks_db w → t_id t0 < t_id t)
       ∧ (∀ rs', t_id t ∉ issued clock rs' w')).
Proof.
  intros w ids.
  destruct (issued_consecutive clock rs initial) as [Hseq Hnext].
  fold ids in Hseq, Hnext. fold w in Hnext. simpl in Hseq, Hnext.
  split; [done|]. split; [rewrite Hseq; apply NoDup_seqZ|]. split; [done|].
  split; [intros r; apply next_id_monotone|].
  intros task_data. eexists _, _. split; [apply create_task_eq|]. simpl.
  split; [done|]. split; [|split].
  - intros i Hi. rewrite Hseq in Hi. apply elem_of_seqZ in Hi. lia.
  - intros t0 Ht0.
    assert (Hinv : store_inv w) by apply run_inv, store_inv_initial.
    destruct Hinv as [_ Hlt]. rewrite Forall_forall in Hlt. by apply Hlt.
  - intros rs' Hin.
    destruct (issued_consecutive clock rs'
      (mk_world (tasks_db w ++
         [mk_task (next_id w) (Some (tc_title task_data)) (tc_description task_data)
            (Some (tc_status task_data)) (Some (tc_priority task_data))
            (tc_due_date task_data) (clock (clock_reads w))
            (clock (S (clock_reads w)))])
         (next_id w + 1) (S (S (clock_reads w))))) as [Hseq' _].
    rewrite Hseq' in Hin. apply elem_of_seqZ in Hin. simpl in Hin. lia.
Qed.

Lemma C1_ids_never_reused_witness :
  let rs := [POST_task (titled "a"); DELETE_task 1; POST_task (titled "b")] in
  issued ticking rs initial = [1; 2]
  ∧ ∃ t w', create_task ticking (mk_TaskCreate "c" None PENDING MEDIUM None)
              (run ticking rs initial) = (Ok t, w')
      ∧ (∀ i, i ∈ issued ticking rs initial → i < t_id t).
Proof.
  intros rs. split; [reflexivity|].
  destruct (C1_ids_never_reused ticking rs) as (_ & _ & _ & _ & Hc).
  destruct (Hc (mk_TaskCreate "c" None PENDING MEDIUM None))
    as (t & w' & Hcr & _ & Hlt & _).
  exists t, w'. split; [exact Hcr | exact Hlt].
Defined.

(** ** Partial update *)



(** ** Summary *)

(** C5: on an empty store [get_task_summary] answers total 0 with two empty
    mappings; on a non-empty store the total is the number of stored tasks,
    [by_status] has exactly the four status values as keys, each mapped to the
    number of tasks in that status (0 when there is none), and [by_priority]
    is the same over the four priority values.  The store is not changed. *)
Theorem C5_summary (w : world) :
  (tasks_db w = [] → get_task_summary w = (Ok (mk_summary 0 ∅ ∅), w))
  ∧ (tasks_db w ≠ [] →
     ∃ s, get_task_summary w = (Ok s, w)
       ∧ total s = length (tasks_db w)
       ∧ (∀ st, by_status s !! status_value st
                = Some (length (filter (λ t, t_status t = Some st) (tasks_db w))))
       ∧ dom (by_status s) = list_to_set (status_value <$> all_TaskStatus)
       ∧ (∀ p, by_priority s !! priority_value p
               = Some (length (filter (λ t, t_priority t = Some p) (tasks_db w))))
       ∧ dom (by_priority s) = list_to_set (priority_value <$> all_TaskPriority)).
Proof.
  unfold get_task_summary. run_M. split.
  - by intros ->.
  - intros Hne. destruct (tasks_db w) as [|t db] eqn:Hdb; [done|].
    eexists. split; [reflexivity|]. simpl. split; [done|].
    split; [|split; [|split]].
    + intros st. destruct st; simpl;
        rewrite ?lookup_insert_ne by done; by rewrite lookup_insert_eq.
    + rewrite !dom_insert_L, dom_empty_L. set_solver.
    + intros p. destruct p; simpl;
        rewrite ?lookup_insert_ne by done; by rewrite lookup_insert_eq.
    + rewrite !dom_insert_L, dom_empty_L. set_solver.
Qed.

Lemma C5_summary_witness :
  get_task_summary initial = (Ok (mk_summary 0 ∅ ∅), initial)
  ∧ ∃ s, get_task_summary two_pending = (Ok s, two_pending)
      ∧ total s = 2%nat
      ∧ by_status s !! "pending" = Some 2%nat
      ∧ by_status s !! "cancelled" = Some 0%nat
      ∧ by_priority s !! "medium" = Some 2%nat
      ∧ by_priority s !! "high" = Some 0%nat.
Proof.
  split.
  - apply (proj1 (C5_summary initial)). reflexivity.
  - destruct (proj2 (C5_summary two_pending)) as (s & Hs & Ht & Hst & _ & Hp & _);
      [discriminate|].
    exists s. split; [exact Hs|]. split; [exact Ht|].
    split; [exact (Hst PENDING)|]. split; [exact (Hst CANCELLED)|].
    split; [exact (Hp MEDIUM) | exact (Hp HIGH)].
Defined.

(** ** Length constraints of the payloads *)

(** What [TaskCreate] accepts satisfies the length constraints. *)
Lemma parse_TaskCreate_lengths (b : body) (task_data : TaskCreate) :
  parse_TaskCreate b = inr task_data →
  (1 ≤ py_len (tc_title task_data) ≤ 200)%nat
  ∧ ∀ d, tc_description task_data = Some d → (py_len d ≤ 1000)%nat.
Proof.
  unfold parse_TaskCreate, required_str, optional_str, str_constraints.
  destruct (b_title b) as [| |s]; simpl;
    [destruct (b_description b) as [| |d0]; simpl;
       try destruct (bool_decide _);
       destruct (defaulted_enum _ _ _ (b_status b)),
         (defaulted_enum _ _ _ (b_priority b)),
         (optional_datetime (b_due_date b)); discriminate ..|].
  destruct (bool_decide (1 ≤ py_len s)%nat) eqn:H1;
    destruct (bool_decide (py_len s ≤ 200)%nat) eqn:H2; simpl;
    destruct (b_description b) as [| |d0]; simpl;
    try destruct (bool_decide (py_len d0 ≤ 1000)%nat) eqn:H3; simpl;
    destruct (defaulted_enum _ _ _ (b_status b)),
      (defaulted_enum _ _ _ (b_priority b)),
      (optional_datetime (b_due_date b)); simpl; try discriminate;
    intros [= <-]; simpl;
    apply bool_decide_eq_true in H1, H2; (split; [lia|]);
    intros d' [= <-]; try discriminate.
  by apply bool_decide_eq_true in H3.
Qed.

(** A body that [TaskCreate] rejects never reaches [create_task]. *)
Lemma POST_rejected clock (b : body) (locs : list string) (w : world) :
  parse_TaskCreate b = inl locs →
  route clock (POST_task b) w = (Raise (ValidationError locs), w).
Proof. intros H. unfold route. by rewrite H. Qed.

(** A body that [TaskUpdate] rejects never reaches [update_task]. *)
Lemma PUT_rejected clock (task_id : Z) (b : body) (locs : list string) (w : world) :
  parse_TaskUpdate b = inl locs →
  route clock (PUT_task task_id b) w = (Raise (ValidationError locs), w).
Proof. intros H. unfold route. by rewrite H. Qed.

(** C2 (the code departs from it): the body [{"title": null}] passes
    [TaskUpdate], whose [title] is [Optional[str]], and [update_task] assigns
    it: after [POST {"title": "T"}] and [PUT /1 {"title": null}] the stored
    task has no title, although no validation error was raised. *)
Lemma C2_null_title_stored :
  let create := POST_task (titled "T") in
  let update := PUT_task 1 (mk_body Null Unset Unset Unset Unset) in
  let w := run ticking [create] initial in
  (∃ t, fst (route ticking update w) = Ok (Updated t) ∧ t_title t = None)
  ∧ t_title <$> tasks_db (run ticking [create; update] initial) = [None].
Proof.
  split; [eexists; split|]; vm_compute; reflexivity.
Qed.

(** ** Timestamps of a new task *)

Lemma create_task_timestamps clock (task_data : TaskCreate) (w : world) :
  ∃ t w', create_task clock task_data w = (Ok t, w')
    ∧ t_created_at t = clock (clock_reads w)
    ∧ t_updated_at t = clock (S (clock_reads w)).
Proof. eexists _, _. split; [apply create_task_eq|]. by split. Qed.

(** C3 (the code departs from it): [create_task] calls [datetime.utcnow()]
    once for [created_at] and once more for [updated_at]; when the clock has
    advanced between the two calls, the returned task has
    [created_at < updated_at]. *)
Lemma C3_created_at_before_updated_at :
  ∃ t w', create_task ticking (mk_TaskCreate "T" None PENDING MEDIUM None) initial
          = (Ok t, w')
    ∧ t_created_at t = 0 ∧ t_updated_at t = 1
    ∧ t_created_at t ≠ t_updated_at t.
Proof.
  eexists _, _. split; [apply create_task_eq|]. simpl. by repeat split.
Qed.

(** * Further properties of the store *)

(** ** The enumerations *)

Lemma TaskStatus_of_value_Some (raw : string) (s : TaskStatus) :
  TaskStatus_of_value raw = Some s → status_value s = raw.
Proof.
  unfold TaskStatus_of_value.
  destruct (list_find _ _) as [[i s']|] eqn:Hf; [|done].
  intros [= <-]. by apply list_find_Some in Hf as (_ & ? & _).
Qed.

Lemma TaskPriority_of_value_Some (raw : string) (p : TaskPriority) :
  TaskPriority_of_value raw = Some p → priority_value p = raw.
Proof.
  unfold TaskPriority_of_value.
  destruct (list_find _ _) as [[i p']|] eqn:Hf; [|done].
  intros [= <-]. by apply list_find_Some in Hf as (_ & ? & _).
Qed.

(** X1: a member of [TaskStatus] or [TaskPriority] is found again from its
    value, and a text that names a member is that member's value. *)
Theorem enum_value_roundtrip :
  (∀ s, TaskStatus_of_value (status_value s) = Some s)
  ∧ (∀ raw s, TaskStatus_of_value raw = Some s → status_value s = raw)
  ∧ (∀ p, TaskPriority_of_value (priority_value p) = Some p)
  ∧ (∀ raw p, TaskPriority_of_value raw = Some p → priority_value p = raw).
Proof.
  split; [|split; [|split]].
  - by intros [].
  - apply TaskStatus_of_value_Some.
  - by intros [].
  - apply TaskPriority_of_value_Some.
Qed.

Lemma enum_value_roundtrip_witness :
  TaskStatus_of_value "in_progress" = Some IN_PROGRESS
  ∧ status_value IN_PROGRESS = "in_progress".
Proof.
  split.
  - exact (proj1 enum_value_roundtrip IN_PROGRESS).
  - apply (proj1 (proj2 enum_value_roundtrip) "in_progress" IN_PROGRESS).
    reflexivity.
Defined.

Lemma TaskStatus_of_value_unknown (raw : string) :
  (∀ s, status_value s ≠ raw) → TaskStatus_of_value raw = None.
Proof.
  intros Hraw. destruct (TaskStatus_of_value raw) as [s|] eqn:Hs; [|done].
  apply TaskStatus_of_value_Some in Hs. by destruct (Hraw s).
Qed.

Lemma TaskPriority_of_value_unknown (raw : string) :
  (∀ p, priority_value p ≠ raw) → TaskPriority_of_value raw = None.
Proof.
  intros Hraw. destruct (TaskPriority_of_value raw) as [p|] eqn:Hp; [|done].
  apply TaskPriority_of_value_Some in Hp. by destruct (Hraw p).
Qed.

(** ** What a request can do to the store *)

(** A request leaves the store as it is, or its handler is [create_task],
    [update_task] or [delete_task] run on validated input. *)
Lemma route_world_cases clock (r : request) (w : world) :
  snd (route clock r w) = w
  ∨ (∃ b task_data, r = POST_task b ∧ parse_TaskCreate b = inr task_data
       ∧ snd (route clock r w) = snd (create_task clock task_data w))
  ∨ (∃ task_id b u, r = PUT_task task_id b ∧ parse_TaskUpdate b = inr u
       ∧ snd (route clock r w) = snd (update_task clock task_id u w))
  ∨ (∃ task_id, r = DELETE_task task_id
       ∧ snd (route clock r w) = snd (delete_task task_id w)).
Proof.
  destruct r; unfold route.
  - left. match goal with |- context [check ?v] => destruct v as [e|[[[s p] l] o]] end.
    + by rewrite check_inl.
    + rewrite check_inr, snd_bind_ret. by rewrite get_tasks_world.
  - left. by rewrite snd_bind_ret, get_task_world.
  - destruct (parse_TaskCreate b) as [e|task_data] eqn:Hp.
    + left. by rewrite check_inl.
    + right; left. exists b, task_data. by rewrite check_inr, snd_bind_ret.
  - destruct (parse_TaskUpdate b) as [e|u] eqn:Hp.
    + left. by rewrite check_inl.
    + right; right; left. exists task_id, b, u. by rewrite check_inr, snd_bind_ret.
  - right; right; right. exists task_id. by rewrite snd_bind_ret.
  - left. by rewrite snd_bind_ret, get_task_summary_world.
Qed.

Lemma run_preserves clock (P : world → Prop) :
  (∀ r w, P w → P (snd (route clock r w))) →
  ∀ rs w, P w → P (run clock rs w).
Proof.
  intros Hstep rs. induction rs as [|r rs IH]; intros w Hw; [done|].
  simpl. by apply IH, Hstep.
Qed.

(** X2: the routes registered with [router.get] never change the store,
    whether they answer, fail validation or raise 404. *)
Theorem get_routes_read_only clock (r : request) (w : world) :
  is_get r = true → snd (route clock r w) = w.
Proof.
  intros Hr.
  destruct (route_world_cases clock r w)
    as [H|[(b & td & -> & _)|[(i & b & u & -> & _)|(i & -> & _)]]];
    done.
Qed.

Lemma get_routes_read_only_witness :
  snd (route ticking (GET_tasks (Some "pending") None (Some 0) None) two_pending)
  = two_pending.
Proof. apply get_routes_read_only. reflexivity. Defined.

(** ** Validation of the bodies *)

Lemma str_constraints_between (lo hi : nat) (s : string) :
  str_constraints (Some lo) (Some hi) s = true
  ↔ (lo ≤ py_len s ≤ hi)%nat.
Proof.
  unfold str_constraints. rewrite andb_true_iff, !bool_decide_eq_true. tauto.
Qed.

Lemma str_constraints_at_most (hi : nat) (s : string) :
  str_constraints None (Some hi) s = true ↔ (py_len s ≤ hi)%nat.
Proof.
  unfold str_constraints. simpl. by rewrite bool_decide_eq_true.
Qed.

(** Lengths are counted in characters: a title of 101 accented letters
    takes 202 bytes and is accepted. *)
Example accented_title_accepted :
  let s := String.concat "" (replicate 101 "é") in
  py_len s = 101%nat ∧ String.length s = 202%nat
  ∧ ∃ t w', route ticking (POST_task (titled s)) initial = (Ok (Created t), w')
      ∧ t_title t = Some s.
Proof.
  intros s. split; [by vm_compute|]. split; [by vm_compute|].
  eexists _, _. split; [vm_compute; reflexivity | reflexivity].
Qed.

Ltac bad_field :=
  simpl; eexists; (split; [reflexivity|]); set_solver.

(** X3: a title that is missing, [null], empty or longer than 200 characters
    makes [POST] fail validation on "title", and a title that is an empty or
    too long string does the same to [PUT], whether or not the id exists; in
    both cases the handler does not run and the store is unchanged. *)
Theorem bad_title_rejected clock (b : body) (w : world) :
  (∀ s, b_title b = Val s → ¬ (1 ≤ py_len s ≤ 200)%nat) →
  (∃ locs, route clock (POST_task b) w = (Raise (ValidationError locs), w)
           ∧ "title" ∈ locs)
  ∧ (b_title b ≠ Unset → b_title b ≠ Null →
     ∀ task_id, ∃ locs,
       route clock (PUT_task task_id b) w = (Raise (ValidationError locs), w)
       ∧ "title" ∈ locs).
Proof.
  intros Hbad. split.
  - unfold route, parse_TaskCreate.
    assert (required_str "title" (Some 1%nat) (Some 200%nat) (b_title b)
            = inl ["title"]) as ->.
    { destruct (b_title b) as [| |s]; simpl; try done.
      destruct (str_constraints _ _ s) eqn:Hs; [|done].
      apply str_constraints_between in Hs. by destruct (Hbad s). }
    destruct (optional_str "description" None (Some 1000%nat) (b_description b))
      as [?|[?|]],
      (defaulted_enum "status" TaskStatus_of_value PENDING (b_status b)),
      (defaulted_enum "priority" TaskPriority_of_value MEDIUM (b_priority b)),
      (optional_datetime (b_due_date b)) as [?|[?|]]; bad_field.
  - intros Hu Hn task_id. unfold route, parse_TaskUpdate.
    assert (optional_str "title" (Some 1%nat) (Some 200%nat) (b_title b)
            = inl ["title"]) as ->.
    { destruct (b_title b) as [| |s]; simpl; try done.
      destruct (str_constraints _ _ s) eqn:Hs; [|done].
      apply str_constraints_between in Hs. by destruct (Hbad s). }
    destruct (optional_str "description" None (Some 1000%nat) (b_description b)),
      (optional_enum "status" TaskStatus_of_value (b_status b)),
      (optional_enum "priority" TaskPriority_of_value (b_priority b)),
      (optional_datetime (b_due_date b)); bad_field.
Qed.

Lemma bad_title_rejected_witness :
  (∃ locs, route ticking (POST_task (titled "")) two_pending
           = (Raise (ValidationError locs), two_pending) ∧ "title" ∈ locs)
  ∧ ∃ locs, route ticking (PUT_task 99999 (titled "")) two_pending
           = (Raise (ValidationError locs), two_pending) ∧ "title" ∈ locs.
Proof.
  assert (H : ∀ s, b_title (titled "") = Val s
                → ¬ (1 ≤ py_len s ≤ 200)%nat).
  { intros s [= <-]. simpl. lia. }
  split.
  - exact (proj1 (bad_title_rejected ticking (titled "") two_pending H)).
  - apply (proj2 (bad_title_rejected ticking (titled "") two_pending H));
      discriminate.
Defined.

(** X4: a description longer than 1000 characters makes [POST] and [PUT] fail
    validation on "description"; the store is unchanged. *)
Theorem long_description_rejected clock (b : body) (d : string) (w : world) :
  b_description b = Val d → (1000 < py_len d)%nat →
  (∃ locs, route clock (POST_task b) w = (Raise (ValidationError locs), w)
           ∧ "description" ∈ locs)
  ∧ (∀ task_id, ∃ locs,
       route clock (PUT_task task_id b) w = (Raise (ValidationError locs), w)
       ∧ "description" ∈ locs).
Proof.
  intros Hd Hlen.
  assert (Hopt : optional_str "description" None (Some 1000%nat) (b_description b)
                 = inl ["description"]).
  { rewrite Hd. simpl. destruct (str_constraints _ _ d) eqn:Hs; [|done].
    apply str_constraints_at_most in Hs. lia. }
  split.
  - unfold route, parse_TaskCreate. rewrite Hopt.
    destruct (required_str "title" (Some 1%nat) (Some 200%nat) (b_title b)),
      (defaulted_enum "status" TaskStatus_of_value PENDING (b_status b)),
      (defaulted_enum "priority" TaskPriority_of_value MEDIUM (b_priority b)),
      (optional_datetime (b_due_date b)) as [?|[?|]]; bad_field.
  - intros task_id. unfold route, parse_TaskUpdate. rewrite Hopt.
    destruct (optional_str "title" (Some 1%nat) (Some 200%nat) (b_title b)),
      (optional_enum "status" TaskStatus_of_value (b_status b)),
      (optional_enum "priority" TaskPriority_of_value (b_priority b)),
      (optional_datetime (b_due_date b)); bad_field.
Qed.

(** X5: a status text that names no member of [TaskStatus] is rejected with
    a validation error on "status" by the list route (as a query parameter)
    and by [POST] and [PUT] (as a body key); the store is unchanged. *)
Theorem unknown_status_rejected clock (raw : string) (w : world) :
  (∀ s, status_value s ≠ raw) →
  (∀ priority limit offset, ∃ locs,
     route clock (GET_tasks (Some raw) priority limit offset) w
     = (Raise (ValidationError locs), w) ∧ "status" ∈ locs)
  ∧ (∀ b, b_status b = Val raw → ∃ locs,
     route clock (POST_task b) w = (Raise (ValidationError locs), w)
     ∧ "status" ∈ locs)
  ∧ (∀ task_id b, b_status b = Val raw → ∃ locs,
     route clock (PUT_task task_id b) w = (Raise (ValidationError locs), w)
     ∧ "status" ∈ locs).
Proof.
  intros Hraw. apply TaskStatus_of_value_unknown in Hraw.
  split; [|split].
  - intros priority limit offset. unfold route, Query_enum at 1. rewrite Hraw.
    destruct (Query_enum "priority" TaskPriority_of_value priority),
      (Query_int "limit" 10 (Some 1) (Some 100) limit),
      (Query_int "offset" 0 (Some 0) None offset); bad_field.
  - intros b Hb. unfold route, parse_TaskCreate.
    rewrite Hb. unfold defaulted_enum at 1. rewrite Hraw.
    destruct (required_str "title" (Some 1%nat) (Some 200%nat) (b_title b)),
      (optional_str "description" None (Some 1000%nat) (b_description b))
        as [?|[?|]],
      (defaulted_enum "priority" TaskPriority_of_value MEDIUM (b_priority b)),
      (optional_datetime (b_due_date b)) as [?|[?|]]; bad_field.
  - intros task_id b Hb. unfold route, parse_TaskUpdate.
    rewrite Hb. unfold optional_enum at 1. rewrite Hraw.
    destruct (optional_str "title" (Some 1%nat) (Some 200%nat) (b_title b)),
      (optional_str "description" None (Some 1000%nat) (b_description b)),
      (optional_enum "priority" TaskPriority_of_value (b_priority b)),
      (optional_datetime (b_due_date b)); bad_field.
Qed.

Lemma long_description_rejected_witness :
  let d := String.concat "" (replicate 1001 "x") in
  let b := mk_body (Val "T") (Val d) Unset Unset Unset in
  (∃ locs, route ticking (POST_task b) initial
           = (Raise (ValidationError locs), initial) ∧ "description" ∈ locs).
Proof.
  intros d b.
  apply (proj1 (long_description_rejected ticking b d initial eq_refl
                  ltac:(apply Nat.ltb_lt; vm_compute; reflexivity))).
Defined.

Lemma unknown_status_rejected_witness :
  (∃ locs, route ticking (GET_tasks (Some "done") None None None) two_pending
           = (Raise (ValidationError locs), two_pending) ∧ "status" ∈ locs)
  ∧ (∃ locs, route ticking (PUT_task 1 (mk_body Unset Unset (Val "done") Unset Unset))
               two_pending
           = (Raise (ValidationError locs), two_pending) ∧ "status" ∈ locs).
Proof.
  assert (H : ∀ s, status_value s ≠ "done") by (by intros []).
  destruct (unknown_status_rejected ticking "done" two_pending H) as (Hq & _ & Hu).
  split; [apply Hq | by apply Hu].
Defined.

(** ** Creation *)

(** X6: a body that [POST] accepts is stored as sent: the title as given, the
    description and due date as given ([None] when absent or [null]), the
    status and priority that the texts name, or pending and medium when the
    keys are omitted; the task gets the counter as id and is appended to the
    store, and the counter advances by one. *)
Theorem POST_stores_body clock (b : body) (w w' : world) (t : task) :
  route clock (POST_task b) w = (Ok (Created t), w') →
  (∃ s, b_title b = Val s ∧ t_title t = Some s)
  ∧ t_description t
    = match b_description b with Val d => Some d | _ => None end
  ∧ match b_status b with
    | Unset => t_status t = Some PENDING
    | Val x => ∃ s, t_status t = Some s ∧ status_value s = x
    | Null => False
    end
  ∧ match b_priority b with
    | Unset => t_priority t = Some MEDIUM
    | Val x => ∃ p, t_priority t = Some p ∧ priority_value p = x
    | Null => False
    end
  ∧ t_due_date t = match b_due_date b with Val d => Some d | _ => None end
  ∧ t_id t = next_id w
  ∧ tasks_db w' = tasks_db w ++ [t]
  ∧ next_id w' = next_id w + 1.
Proof.
  unfold route. destruct (parse_TaskCreate b) as [e|task_data] eqn:Hp;
    [by rewrite check_inl|].
  rewrite check_inr. unfold mbind, M_bind, mret, M_ret.
  rewrite create_task_eq. intros [= <- <-]. simpl.
  revert Hp. unfold parse_TaskCreate.
  destruct b as [[| |s] [| |d] [| |x] [| |y] [| |dd]]; simpl;
    repeat match goal with
    | |- context [str_constraints ?a ?b ?c] => destruct (str_constraints a b c); simpl
    | |- context [TaskStatus_of_value ?r] =>
        let H := fresh "Hs" in destruct (TaskStatus_of_value r) eqn:H; simpl
    | |- context [TaskPriority_of_value ?r] =>
        let H := fresh "Hp" in destruct (TaskPriority_of_value r) eqn:H; simpl
    end;
    try discriminate; intros [= <-]; simpl;
    repeat match goal with
    | H : TaskStatus_of_value _ = Some _ |- _ =>
        apply TaskStatus_of_value_Some in H
    | H : TaskPriority_of_value _ = Some _ |- _ =>
        apply TaskPriority_of_value_Some in H
    end;
    repeat split; eauto.
Qed.

Lemma POST_stores_body_witness :
  let t := mk_task 1 (Some "a") None (Some PENDING) (Some MEDIUM) None 0 1 in
  (∃ s, b_title (titled "a") = Val s ∧ t_title t = Some s)
  ∧ t_status t = Some PENDING
  ∧ t_priority t = Some MEDIUM.
Proof.
  intros t.
  destruct (POST_stores_body ticking (titled "a") initial
              (mk_world [t] 2 2) t eq_refl) as (Ht & _ & Hs & Hp & _).
  split; [exact Ht|]. split; [exact Hs | exact Hp].
Defined.

(** ** Reading back what was written *)

Lemma same_id_same_task (db : list task) (t t' : task) :
  NoDup (t_id <$> db) → t ∈ db → t' ∈ db → t_id t = t_id t' → t = t'.
Proof.
  intros Hnd Ht Ht' Hid.
  apply list_elem_of_lookup in Ht as [i Hi].
  apply list_elem_of_lookup in Ht' as [j Hj].
  assert (i = j) as ->; [|congruence].
  eapply NoDup_lookup; [exact Hnd| |];
    rewrite list_lookup_fmap; [by rewrite Hi | rewrite Hj; simpl; congruence].
Qed.

(** X7: on a store reached by requests, [get_task] of the id of a stored task
    returns that very task and changes nothing. *)
Theorem get_task_stored clock (w : world) (t : task) :
  reachable clock w → t ∈ tasks_db w → get_task (t_id t) w = (Ok t, w).
Proof.
  intros Hr Ht. apply reachable_inv in Hr as [Hnd _].
  destruct (find_by_id_present (t_id t) (tasks_db w) t Ht eq_refl) as (i & t' & Hf).
  rewrite (get_task_found _ _ _ _ Hf). do 2 f_equal.
  apply find_by_id_Some in Hf as [Hi Hid].
  eapply same_id_same_task; [exact Hnd | by eapply list_elem_of_lookup_2 | done | done].
Qed.

Lemma get_task_stored_witness :
  get_task 2 two_pending
  = (Ok (mk_task 2 (Some "b") None (Some PENDING) (Some MEDIUM) None 2 3), two_pending).
Proof.
  apply (get_task_stored ticking two_pending
           (mk_task 2 (Some "b") None (Some PENDING) (Some MEDIUM) None 2 3)).
  - exists [POST_task (titled "a"); POST_task (titled "b")]. reflexivity.
  - vm_compute. apply list_elem_of_further, list_elem_of_here.
Defined.

(** X8: what [create_task] returns is what [get_task] of the new id returns
    right after, on a store reached by requests; and what [update_task]
    returns for an id in the store is what [get_task] of that id returns
    right after, on any store. *)
Theorem write_then_read clock (w : world) :
  (reachable clock w →
   ∀ task_data, ∃ t w', create_task clock task_data w = (Ok t, w')
     ∧ get_task (t_id t) w' = (Ok t, w'))
  ∧ (∀ task_id u, (∃ t, t ∈ tasks_db w ∧ t_id t = task_id) →
     ∃ t' w', update_task clock task_id u w = (Ok t', w')
       ∧ get_task task_id w' = (Ok t', w')).
Proof.
  split.
  - intros Hr task_data. apply reachable_inv in Hr as [_ Hlt].
    eexists _, _. split; [apply create_task_eq|]. simpl.
    eapply get_task_found. simpl. unfold find_by_id.
    rewrite list_find_app_r.
    + simpl. rewrite decide_True by done. reflexivity.
    + apply list_find_None. eapply Forall_impl; [exact Hlt|]. simpl. lia.
  - intros task_id u (t & Ht & Hid).
    destruct (find_by_id_present task_id (tasks_db w) t Ht Hid) as (i & t0 & Hf).
    eexists _, _. split; [by eapply update_task_found|].
    eapply get_task_found. simpl. unfold find_by_id in *.
    apply list_find_Some in Hf as (Hi & Hid0 & Hbefore).
    apply list_find_insert_Some. right; left.
    split; [done|]. split; [done|].
    split; [by eapply lookup_lt_Some|].
    split; [|done]. simpl. by rewrite foldl_setitem_id.
Qed.

Lemma write_then_read_witness :
  (∃ t w', create_task ticking (mk_TaskCreate "c" None PENDING HIGH None) two_pending
           = (Ok t, w') ∧ get_task (t_id t) w' = (Ok t, w'))
  ∧ (∃ t' w', update_task ticking 1
                (mk_TaskUpdate None None None (Some (Some LOW)) None) two_pending
              = (Ok t', w') ∧ get_task 1 w' = (Ok t', w')).
Proof.
  split.
  - apply (proj1 (write_then_read ticking two_pending)).
    exists [POST_task (titled "a"); POST_task (titled "b")]. reflexivity.
  - apply (proj2 (write_then_read ticking two_pending)).
    eexists. split; [apply list_elem_of_here | reflexivity].
Defined.

(** ** Invariants over sequences of requests *)

Lemma update_task_ids clock (task_id : Z) (u : TaskUpdate) (w : world) :
  let w' := snd (update_task clock task_id u w) in
  t_id <$> tasks_db w' = t_id <$> tasks_db w ∧ next_id w' = next_id w.
Proof.
  destruct (find_by_id task_id (tasks_db w)) as [[i t]|] eqn:Hf.
  - rewrite (update_task_found clock task_id u w i t Hf). simpl.
    apply find_by_id_Some in Hf as [Hi Hid]. split; [|done].
    rewrite list_fmap_insert. simpl. rewrite foldl_setitem_id.
    apply list_insert_id. by rewrite list_lookup_fmap, Hi.
  - by rewrite update_task_missing.
Qed.

Lemma delete_task_world (task_id : Z) (w : world) :
  let w' := snd (delete_task task_id w) in
  tasks_db w' = filter (λ t, t_id t ≠ task_id) (tasks_db w)
  ∧ next_id w' = next_id w ∧ clock_reads w' = clock_reads w.
Proof.
  destruct (find_by_id task_id (tasks_db w)) as [[i t]|] eqn:Hf.
  - by rewrite (delete_task_found task_id w i t Hf).
  - rewrite delete_task_missing by done. simpl.
    split; [|done]. symmetry. apply filter_absent_id.
    intros Hin. apply list_elem_of_fmap in Hin as (t & -> & Ht).
    by apply (proj1 (find_by_id_None _ _) Hf t Ht).
Qed.

Lemma sorted_ids_filter (P : task → Prop) `{!∀ t, Decision (P t)} (db : list task) :
  StronglySorted Z.lt (t_id <$> db) →
  StronglySorted Z.lt (t_id <$> filter P db).
Proof.
  induction db as [|t db IH]; intros Hs; [done|].
  rewrite fmap_cons in Hs. apply StronglySorted_inv in Hs as [Hs Hall].
  rewrite filter_cons. destruct (decide (P t)); [|by apply IH].
  rewrite fmap_cons. constructor; [by apply IH|].
  apply Forall_forall. intros i Hi.
  apply list_elem_of_fmap in Hi as (t' & -> & Ht').
  apply list_elem_of_filter in Ht' as [_ Ht'].
  rewrite Forall_forall in Hall. apply Hall.
  apply list_elem_of_fmap. by exists t'.
Qed.

Lemma ids_ascending_route clock (r : request) (w : world) :
  ids_ascending w → ids_ascending (snd (route clock r w)).
Proof.
  intros (Hs & Hb & H1).
  destruct (route_world_cases clock r w)
    as [->|[(b & td & _ & _ & ->)|[(i & b & u & _ & _ & ->)|(i & _ & ->)]]].
  - done.
  - rewrite create_task_eq. unfold ids_ascending. simpl.
    rewrite fmap_app. simpl. split; [|split; [|lia]].
    + apply StronglySorted_app. split; [|split; [done|]].
      * intros x1 x2 Hx1 Hx2. apply list_elem_of_singleton in Hx2 as ->.
        apply list_elem_of_fmap in Hx1 as (t & -> & Ht).
        rewrite Forall_forall in Hb. specialize (Hb t Ht). lia.
      * repeat constructor.
    + apply Forall_app. split.
      * eapply Forall_impl; [exact Hb|]. simpl. intros; lia.
      * apply Forall_singleton. simpl. lia.
  - destruct (update_task_ids clock i u w) as [Hids Hn].
    unfold ids_ascending. rewrite Hids, Hn. split; [done|]. split; [|done].
    apply Forall_forall. intros t Ht.
    assert (Hin : t_id t ∈ t_id <$> tasks_db w).
    { rewrite <- Hids. apply list_elem_of_fmap. by exists t. }
    apply list_elem_of_fmap in Hin as (t0 & -> & Ht0).
    rewrite Forall_forall in Hb. by apply Hb.
  - destruct (delete_task_world i w) as (Hdb & Hn & _).
    unfold ids_ascending. rewrite Hdb, Hn. split; [|split; [|done]].
    + by apply sorted_ids_filter.
    + apply Forall_forall. intros t Ht. apply list_elem_of_filter in Ht as [_ Ht].
      rewrite Forall_forall in Hb. by apply Hb.
Qed.

(** X9: after any sequence of requests from the empty store, the stored ids
    are strictly increasing along the list (insertion order is id order), each
    lies between 1 and the counter, and the counter is at least 1. *)
Theorem reachable_ids_ascending clock (rs : list request) :
  ids_ascending (run clock rs initial).
Proof.
  apply (run_preserves clock ids_ascending).
  - apply ids_ascending_route.
  - split; [constructor|]. split; [constructor | done].
Qed.

Lemma foldl_setitem_created_at (t : task) (its : list item) :
  t_created_at (foldl setitem t its) = t_created_at t.
Proof.
  revert t. induction its as [|it its IH]; intros t; [done|].
  simpl. rewrite IH. by destruct it.
Qed.

(** X10: a request never changes the [created_at] (nor the id) of a task
    that stays in the store: on a store reached by requests, a task found
    after the request under an id that was stored before has the
    [created_at] it had before. *)
Theorem created_at_immutable clock (r : request) (w : world) (t t' : task) :
  reachable clock w →
  t ∈ tasks_db w → t' ∈ tasks_db (snd (route clock r w)) → t_id t' = t_id t →
  t_created_at t' = t_created_at t.
Proof.
  intros Hr Ht Ht' Hid. apply reachable_inv in Hr as [Hnd Hlt].
  destruct (route_world_cases clock r w)
    as [Hw|[(b & td & _ & _ & Hw)|[(i & b & u & _ & _ & Hw)|(i & _ & Hw)]]];
    rewrite Hw in Ht'; clear Hw.
  - by rewrite (same_id_same_task _ _ _ Hnd Ht' Ht Hid).
  - rewrite create_task_eq in Ht'. simpl in Ht'.
    apply elem_of_app in Ht' as [Ht'|Ht'].
    + by rewrite (same_id_same_task _ _ _ Hnd Ht' Ht Hid).
    + apply list_elem_of_singleton in Ht' as ->. simpl in Hid.
      rewrite Forall_forall in Hlt. specialize (Hlt t Ht). lia.
  - destruct (find_by_id i (tasks_db w)) as [[k t0]|] eqn:Hf.
    + rewrite (update_task_found clock i u w k t0 Hf) in Ht'. simpl in Ht'.
      apply find_by_id_Some in Hf as [Hk Hid0].
      apply list_elem_of_lookup in Ht' as [j Hj].
      destruct (decide (j = k)) as [->|Hne].
      * rewrite list_lookup_insert_eq in Hj by (by eapply lookup_lt_Some).
        injection Hj as <-. simpl in *. rewrite foldl_setitem_id in Hid.
        rewrite foldl_setitem_created_at. f_equal.
        eapply same_id_same_task; [exact Hnd| |done|done].
        by eapply list_elem_of_lookup_2.
      * rewrite list_lookup_insert_ne in Hj by done.
        apply list_elem_of_lookup_2 in Hj.
        by rewrite (same_id_same_task _ _ _ Hnd Hj Ht Hid).
    + rewrite update_task_missing in Ht' by done.
      by rewrite (same_id_same_task _ _ _ Hnd Ht' Ht Hid).
  - destruct (delete_task_world i w) as (Hdb & _). rewrite Hdb in Ht'.
    apply list_elem_of_filter in Ht' as [_ Ht'].
    by rewrite (same_id_same_task _ _ _ Hnd Ht' Ht Hid).
Qed.

Lemma created_at_immutable_witness :
  let t := mk_task 1 (Some "a") None (Some PENDING) (Some MEDIUM) None 0 1 in
  let t' := mk_task 1 (Some "z") None (Some PENDING) (Some MEDIUM) None 0 4 in
  t_created_at t' = t_created_at t.
Proof.
  intros t t'.
  apply (created_at_immutable ticking (PUT_task 1 (titled "z")) two_pending t t').
  - exists [POST_task (titled "a"); POST_task (titled "b")]. reflexivity.
  - vm_compute. apply list_elem_of_here.
  - vm_compute. apply list_elem_of_here.
  - reflexivity.
Defined.

(** The fields of a task after the assignments of [update_task]. *)
Lemma updated_fields (t : task) (u : TaskUpdate) :
  let t' := foldl setitem t (dict_exclude_unset u) in
  t_title t' = default (t_title t) (tu_title u)
  ∧ t_description t' = default (t_description t) (tu_description u)
  ∧ t_status t' = default (t_status t) (tu_status u)
  ∧ t_priority t' = default (t_priority t) (tu_priority u)
  ∧ t_due_date t' = default (t_due_date t) (tu_due_date u).
Proof. by destruct u as [[a|] [b|] [c|] [d|] [e|]]. Qed.

(** What [TaskUpdate] accepts holds, field by field, what the field's
    declaration accepts. *)
Lemma parse_TaskUpdate_fields (b : body) (u : TaskUpdate) :
  parse_TaskUpdate b = inr u →
  optional_str "title" (Some 1%nat) (Some 200%nat) (b_title b) = inr (tu_title u)
  ∧ optional_str "description" None (Some 1000%nat) (b_description b)
    = inr (tu_description u)
  ∧ optional_enum "status" TaskStatus_of_value (b_status b) = inr (tu_status u)
  ∧ optional_enum "priority" TaskPriority_of_value (b_priority b)
    = inr (tu_priority u)
  ∧ optional_datetime (b_due_date b) = inr (tu_due_date u).
Proof.
  unfold parse_TaskUpdate.
  destruct (optional_str "title" _ _ _), (optional_str "description" _ _ _),
    (optional_enum "status" _ _), (optional_enum "priority" _ _),
    (optional_datetime _); simpl; try discriminate.
  by intros [= <-].
Qed.

Lemma optional_str_inr name lo hi raw (v : option (option string)) :
  optional_str name lo hi raw = inr v →
  match v with
  | None => raw = Unset
  | Some None => raw = Null
  | Some (Some s) => raw = Val s ∧ str_constraints lo hi s = true
  end.
Proof.
  destruct raw as [| |s]; simpl; try by intros [= <-].
  destruct (str_constraints lo hi s) eqn:Hs; [|done]. by intros [= <-].
Qed.

Lemma optional_enum_inr {E} name (of_value : string → option E) raw
    (v : option (option E)) :
  optional_enum name of_value raw = inr v →
  match v with
  | None => raw = Unset
  | Some None => raw = Null
  | Some (Some e) => ∃ x, raw = Val x ∧ of_value x = Some e
  end.
Proof.
  destruct raw as [| |x]; simpl; try by intros [= <-].
  destruct (of_value x) as [e|] eqn:He; [|done]. intros [= <-]. by exists x.
Qed.

Lemma Task_valid_update (b : body) (u : TaskUpdate) (t : task) (now : datetime) :
  parse_TaskUpdate b = inr u → ¬ nulls_required b → Task_valid t = true →
  Task_valid (set_updated_at (foldl setitem t (dict_exclude_unset u)) now) = true.
Proof.
  intros Hp Hn Hv.
  apply parse_TaskUpdate_fields in Hp as (Ht & Hd & Hs & Hpr & _).
  apply optional_str_inr in Ht, Hd. apply optional_enum_inr in Hs, Hpr.
  destruct (updated_fields t u) as (Et & Ed & Es & Ep & _).
  unfold Task_valid in *. simpl. rewrite Et, Ed, Es, Ep.
  rewrite !andb_true_iff in Hv. destruct Hv as [[[Hvt Hvd] Hvs] Hvp].
  unfold nulls_required in Hn.
  rewrite !andb_true_iff. repeat split.
  - destruct (tu_title u) as [[s|]|]; simpl; [by destruct Ht | tauto | done].
  - destruct (tu_description u) as [[d|]|]; simpl; [by destruct Hd | done | done].
  - destruct (tu_status u) as [[s|]|]; simpl; [done | tauto | done].
  - destruct (tu_priority u) as [[p|]|]; simpl; [done | tauto | done].
Qed.

Lemma Task_valid_route clock (r : request) (w : world) :
  (∀ task_id b, r = PUT_task task_id b → ¬ nulls_required b) →
  Forall (λ t, Task_valid t = true) (tasks_db w) →
  Forall (λ t, Task_valid t = true) (tasks_db (snd (route clock r w))).
Proof.
  intros Hr Hw.
  destruct (route_world_cases clock r w)
    as [->|[(b & td & _ & Hp & ->)|[(i & b & u & -> & Hp & ->)|(i & _ & ->)]]].
  - done.
  - rewrite create_task_eq. simpl. apply Forall_app. split; [done|].
    apply Forall_singleton. unfold Task_valid. simpl.
    apply parse_TaskCreate_lengths in Hp as [Ht Hd].
    rewrite (proj2 (str_constraints_between 1 200 _) Ht). simpl.
    destruct (tc_description td) as [d|]; [|done].
    by rewrite (proj2 (str_constraints_at_most 1000 d) (Hd d eq_refl)).
  - destruct (find_by_id i (tasks_db w)) as [[k t]|] eqn:Hf.
    + rewrite (update_task_found clock i u w k t Hf). simpl.
      apply find_by_id_Some in Hf as [Hk _].
      apply Forall_insert; [done|].
      eapply Task_valid_update; [exact Hp | by eapply Hr |].
      rewrite Forall_forall in Hw. apply Hw. by eapply list_elem_of_lookup_2.
    + by rewrite update_task_missing.
  - destruct (delete_task_world i w) as (-> & _).
    apply Forall_forall. intros t Ht. apply list_elem_of_filter in Ht as [_ Ht].
    rewrite Forall_forall in Hw. by apply Hw.
Qed.

(** X11: as long as no [PUT] body sets "title", "status" or "priority" to
    [null], every task in the store is an instance of the [Task] model: a
    title of 1 to 200 characters, a description of at most 1000 characters
    or none, a status and a priority. *)
Theorem stored_tasks_valid clock (rs : list request) :
  (∀ task_id b, PUT_task task_id b ∈ rs → ¬ nulls_required b) →
  Forall (λ t, Task_valid t = true) (tasks_db (run clock rs initial)).
Proof.
  assert (H : ∀ rs w,
    (∀ task_id b, PUT_task task_id b ∈ rs → ¬ nulls_required b) →
    Forall (λ t, Task_valid t = true) (tasks_db w) →
    Forall (λ t, Task_valid t = true) (tasks_db (run clock rs w))).
  { clear rs. induction rs as [|r rs IH]; intros w Hrs Hw; [done|].
    simpl. apply IH.
    - intros i b Hin. apply (Hrs i b). by apply list_elem_of_further.
    - apply Task_valid_route; [|done].
      intros i b ->. apply (Hrs i b). apply list_elem_of_here. }
  intros Hrs. apply H; [done | constructor].
Qed.

Lemma stored_tasks_valid_witness :
  Forall (λ t, Task_valid t = true)
    (tasks_db (run ticking [POST_task (titled "a");
                            PUT_task 1 (mk_body Unset Null Unset Unset Unset)]
                 initial)).
Proof.
  apply stored_tasks_valid. intros i b Hin.
  apply elem_of_cons in Hin as [Hin|Hin]; [discriminate|].
  apply list_elem_of_singleton in Hin. injection Hin as -> ->.
  unfold nulls_required. simpl. intros [H|[H|H]]; discriminate.
Defined.

Lemma stamps_ordered_route clock (r : request) (w : world) :
  (∀ m n, (m ≤ n)%nat → clock m ≤ clock n) →
  stamps_ordered clock w → stamps_ordered clock (snd (route clock r w)).
Proof.
  intros Hmono Hw. unfold stamps_ordered in *.
  destruct (route_world_cases clock r w)
    as [->|[(b & td & _ & _ & ->)|[(i & b & u & _ & _ & ->)|(i & _ & ->)]]].
  - done.
  - rewrite create_task_eq. simpl. apply Forall_app. split.
    + eapply Forall_impl; [exact Hw|]. simpl.
      intros t [(k & Hk & Hc) Hle]. split; [|done]. exists k. split; [lia | done].
    + apply Forall_singleton. simpl. split.
      * exists (clock_reads w). split; [lia | done].
      * apply Hmono. lia.
  - destruct (find_by_id i (tasks_db w)) as [[j t]|] eqn:Hf.
    + rewrite (update_task_found clock i u w j t Hf). simpl.
      apply find_by_id_Some in Hf as [Hj _].
      apply Forall_insert.
      * eapply Forall_impl; [exact Hw|]. simpl.
        intros t0 [(k & Hk & Hc) Hle]. split; [|done]. exists k. split; [lia | done].
      * simpl. rewrite foldl_setitem_created_at.
        rewrite Forall_forall in Hw.
        destruct (Hw t (list_elem_of_lookup_2 _ _ _ Hj)) as [(k & Hk & Hc) _].
        split; [exists k; split; [lia | done]|].
        rewrite Hc. apply Hmono. lia.
    + by rewrite update_task_missing.
  - destruct (delete_task_world i w) as (-> & _ & ->).
    apply Forall_forall. intros t Ht. apply list_elem_of_filter in Ht as [_ Ht].
    rewrite Forall_forall in Hw. by apply Hw.
Qed.

(** X12: when the clock never runs backwards, every task in the store has
    [created_at <= updated_at], after any sequence of requests. *)
Theorem created_at_le_updated_at clock (rs : list request) :
  (∀ m n, (m ≤ n)%nat → clock m ≤ clock n) →
  Forall (λ t, t_created_at t ≤ t_updated_at t) (tasks_db (run clock rs initial)).
Proof.
  intros Hmono.
  assert (H : stamps_ordered clock (run clock rs initial)).
  { apply (run_preserves clock (stamps_ordered clock)).
    - intros r w. by apply stamps_ordered_route.
    - constructor. }
  eapply Forall_impl; [exact H|]. simpl. by intros t [_ ?].
Qed.

Lemma created_at_le_updated_at_witness :
  Forall (λ t, t_created_at t ≤ t_updated_at t)
    (tasks_db (run ticking [POST_task (titled "a"); PUT_task 1 (titled "z")] initial)).
Proof.
  apply created_at_le_updated_at. intros m n Hmn. unfold ticking. lia.
Defined.

(** ** Listing *)

(** X13: consecutive pages tile the filtered list: the page of [L1] records
    at offset [O] followed by the page of [L2] records at offset [O + L1] is
    the page of [L1 + L2] records at offset [O]. *)
Theorem pages_tile status priority (L1 L2 O : Z) (w : world) :
  1 ≤ L1 → 1 ≤ L2 → 0 ≤ O →
  ∃ r1 r2 r,
    get_tasks status priority L1 O w = (Ok r1, w)
    ∧ get_tasks status priority L2 (O + L1) w = (Ok r2, w)
    ∧ get_tasks status priority (L1 + L2) O w = (Ok r, w)
    ∧ r = r1 ++ r2.
Proof.
  intros H1 H2 HO. eexists _, _, _.
  rewrite !get_tasks_window by lia. repeat (split; [reflexivity|]).
  replace (Z.to_nat (O + L1)) with (Z.to_nat O + Z.to_nat L1)%nat by lia.
  replace (Z.to_nat (L1 + L2)) with (Z.to_nat L1 + Z.to_nat L2)%nat by lia.
  by rewrite <- drop_drop, take_take_drop.
Qed.

Lemma pages_tile_witness :
  ∃ r1 r2 r,
    get_tasks None None 1 0 two_pending = (Ok r1, two_pending)
    ∧ get_tasks None None 1 (0 + 1) two_pending = (Ok r2, two_pending)
    ∧ get_tasks None None (1 + 1) 0 two_pending = (Ok r, two_pending)
    ∧ r = r1 ++ r2.
Proof. apply pages_tile; lia. Defined.

Lemma filter_no_filters (l : list task) : filter (matches None None) l = l.
Proof.
  induction l as [|t l IH]; [done|].
  rewrite filter_cons_True by done. by rewrite IH.
Qed.

(** X14: on a store of valid tasks, a list request without parameters is
    answered with the first ten stored tasks, in insertion order (all of them
    when there are at most ten), and the store is unchanged. *)
Theorem default_listing clock (w : world) :
  Forall (λ t, Task_valid t = true) (tasks_db w) →
  respond clock (GET_tasks None None None None) w
  = (Answered (Ok (Listed (take 10 (tasks_db w)))), w).
Proof.
  intros Hw.
  etrans; [by apply (respond_listing clock None None None None w)|].
  by rewrite filter_no_filters.
Qed.

Lemma default_listing_witness :
  respond ticking (GET_tasks None None None None) two_pending
  = (Answered (Ok (Listed (take 10 (tasks_db two_pending)))), two_pending).
Proof. apply default_listing. vm_compute. repeat constructor. Defined.

(** X15: a page that starts at or after the number of matching tasks is
    empty, not an error. *)
Theorem offset_past_end status priority (limit offset : Z) (w : world) :
  1 ≤ limit →
  Z.of_nat (length (filter (matches status priority) (tasks_db w))) ≤ offset →
  get_tasks status priority limit offset w = (Ok [], w).
Proof.
  intros Hl Ho. rewrite get_tasks_window by lia.
  rewrite drop_ge by lia. by rewrite take_nil.
Qed.

Lemma offset_past_end_witness :
  get_tasks (Some PENDING) None 10 2 two_pending = (Ok [], two_pending).
Proof.
  apply offset_past_end; [lia|]. vm_compute. discriminate.
Defined.

(** ** Summary *)

Lemma filter_all {A} (P : A → Prop) `{!∀ x, Decision (P x)} (l : list A) :
  Forall P l → filter P l = l.
Proof.
  induction 1 as [|x l Hx Hl IH]; [done|].
  rewrite filter_cons_True by done. by rewrite IH.
Qed.

Lemma count_status_total (db : list task) :
  (count_status db PENDING + count_status db IN_PROGRESS
   + count_status db COMPLETED + count_status db CANCELLED)%nat
  = length (filter (λ t, is_Some (t_status t)) db).
Proof.
  unfold count_status. induction db as [|t db IH]; [done|].
  rewrite !filter_cons.
  destruct (t_status t) as [[]|] eqn:Hs;
    repeat match goal with |- context [decide ?P] => destruct (decide P) end;
    simpl; try congruence; try lia;
    match goal with
    | H : ¬ is_Some _ |- _ => destruct H; eauto
    | H : is_Some None |- _ => by destruct H
    end.
Qed.

Lemma count_priority_total (db : list task) :
  (count_priority db LOW + count_priority db MEDIUM
   + count_priority db HIGH + count_priority db CRITICAL)%nat
  = length (filter (λ t, is_Some (t_priority t)) db).
Proof.
  unfold count_priority. induction db as [|t db IH]; [done|].
  rewrite !filter_cons.
  destruct (t_priority t) as [[]|] eqn:Hs;
    repeat match goal with |- context [decide ?P] => destruct (decide P) end;
    simpl; try congruence; try lia;
    match goal with
    | H : ¬ is_Some _ |- _ => destruct H; eauto
    | H : is_Some None |- _ => by destruct H
    end.
Qed.

(** X16: in the answer of [get_task_summary], the four counts of [by_status]
    add up to the number of stored tasks whose status is not [None], hence to
    at most [total], and to [total] when every stored task has a status; the
    same holds for [by_priority].  (A missing key counts as 0, which covers
    the empty store.) *)
Theorem summary_counts_add_up (w : world) :
  ∃ s, get_task_summary w = (Ok s, w)
    ∧ let by_s := (by_status s !!! "pending" + by_status s !!! "in_progress"
                   + by_status s !!! "completed" + by_status s !!! "cancelled")%nat in
      let by_p := (by_priority s !!! "low" + by_priority s !!! "medium"
                   + by_priority s !!! "high" + by_priority s !!! "critical")%nat in
      by_s = length (filter (λ t, is_Some (t_status t)) (tasks_db w))
      ∧ by_p = length (filter (λ t, is_Some (t_priority t)) (tasks_db w))
      ∧ (by_s ≤ total s)%nat ∧ (by_p ≤ total s)%nat
      ∧ (Forall (λ t, is_Some (t_status t)) (tasks_db w) → by_s = total s)
      ∧ (Forall (λ t, is_Some (t_priority t)) (tasks_db w) → by_p = total s).
Proof.
  unfold get_task_summary. run_M.
  destruct (tasks_db w) as [|t db] eqn:Hdb.
  - eexists. split; [reflexivity|]. simpl.
    rewrite !lookup_total_empty. simpl. repeat split; done.
  - eexists. split; [reflexivity|]. simpl.
    rewrite !lookup_total_alt.
    repeat (rewrite ?lookup_insert_eq; rewrite ?lookup_insert_ne by done). simpl.
    rewrite count_status_total, count_priority_total.
    split; [done|]. split; [done|].
    split; [apply (length_filter _ (t :: db))|].
    split; [apply (length_filter _ (t :: db))|].
    split; intros Hall; by rewrite filter_all.
Qed.

Lemma summary_counts_add_up_witness :
  ∃ s, get_task_summary two_pending = (Ok s, two_pending)
    ∧ (by_status s !!! "pending" + by_status s !!! "in_progress"
       + by_status s !!! "completed" + by_status s !!! "cancelled")%nat
      = total s.
Proof.
  destruct (summary_counts_add_up two_pending) as (s & Hs & _ & _ & _ & _ & Hall & _).
  exists s. split; [exact Hs|]. apply Hall.
  vm_compute. repeat constructor; eauto.
Defined.

(** ** The 404 response of the application *)

(** X17: a [GET], a [DELETE], or a [PUT] with a valid body, on an id that no
    stored task has, is answered by the registered handler with status 404
    and a JSON object of exactly three keys: "error" (the text "Task with ID
    {id} not found"), "status_code" (404) and "timestamp" (the clock reading
    taken by the handler); there is no "detail" key.  The tasks and the id
    counter are unchanged. *)
Theorem not_found_response clock isoformat (task_id : Z) (r : request) (w : world) :
  (∀ t, t ∈ tasks_db w → t_id t ≠ task_id) →
  r = GET_task task_id ∨ r = DELETE_task task_id
  ∨ (∃ b u, r = PUT_task task_id b ∧ parse_TaskUpdate b = inr u) →
  ∃ j w', serve clock isoformat r w = (inr j, w')
    ∧ status_code j = 404
    ∧ content j !! "error"
      = Some (JStr ("Task with ID " +:+ str_of_int task_id +:+ " not found"))
    ∧ content j !! "status_code" = Some (JInt 404)
    ∧ content j !! "timestamp" = Some (JStr (isoformat (clock (clock_reads w))))
    ∧ content j !! "detail" = None
    ∧ dom (content j) = {["error"; "status_code"; "timestamp"]}
    ∧ tasks_db w' = tasks_db w
    ∧ next_id w' = next_id w.
Proof.
  intros Habs Hr. apply find_by_id_None in Habs.
  assert (Hroute : route clock r w = (Raise (not_found task_id), w)).
  { destruct Hr as [->|[->|(b & u & -> & Hp)]]; unfold route.
    - unfold mbind, M_bind. by rewrite get_task_missing.
    - unfold mbind, M_bind. by rewrite delete_task_missing.
    - rewrite Hp, check_inr. unfold mbind, M_bind.
      by rewrite update_task_missing. }
  unfold serve. rewrite Hroute. unfold not_found, http_exception_handler. run_M.
  eexists _, _. split; [reflexivity|]. simpl.
  split; [done|].
  split; [by rewrite !lookup_insert_ne, lookup_insert_eq by done|].
  split; [by rewrite lookup_insert_ne, lookup_insert_eq by done|].
  split; [by rewrite lookup_insert_eq|].
  split; [by rewrite !lookup_insert_ne by done|].
  split; [|done].
  rewrite !dom_insert_L, dom_empty_L. set_solver.
Qed.

Lemma not_found_response_witness :
  ∃ j w', serve ticking str_of_int (GET_task 99999) two_pending = (inr j, w')
    ∧ status_code j = 404
    ∧ content j !! "error" = Some (JStr "Task with ID 99999 not found")
    ∧ content j !! "detail" = None.
Proof.
  destruct (not_found_response ticking str_of_int 99999 (GET_task 99999) two_pending)
    as (j & w' & Hs & Hc & He & _ & _ & Hd & _).
  - apply find_by_id_None. vm_compute. reflexivity.
  - by left.
  - exists j, w'. split; [exact Hs|]. split; [exact Hc|].
    split; [exact He | exact Hd].
Defined.
